(** * SSrehab: validation of GWAS summary-statistics entries

    A shallow embedding of [lib/validate_GWASSS_entries.py]: the row
    validator [check_row], the streaming pass that fills the three per-row
    arrays, the bar-width computation and the p-value-stratified counting.

    Conventions of the embedding.
    - A Python [str] is a [string]; its characters are the code points
      below 256.
    - A Python [float] (and a numpy [float64]) is a binary64 number,
      [spec_float] with precision 53 and maximal exponent 1024; the
      operations are those of [SpecFloat], rounding to nearest even.
    - A Python exception is a value of [exn]; an expression evaluates to an
      [outcome], a statement of [check_row] to a [completion] over the
      mutable list [issues].
    - [cols_i], a [Dict[str, int]], is a [gmap string Z]; an index may be
      negative or past the end of the row.
    - The file object is the text still to be read, newlines translated;
      [np.log10] is a parameter; the array of reasons holds [int64]; the
      lists of counts hold Python integers. *)

From Stdlib Require Import ZArith String Ascii List Bool Lia.
From Stdlib Require Import Floats.SpecFloat.
From stdpp Require Import gmap strings list fin_maps.

Local Open Scope string_scope.
Local Open Scope Z_scope.

(** ** Exceptions and outcomes *)

Inductive exn : Type :=
| IndexError
| KeyError
| ValueError
| OverflowError
| EOFError.

Inductive outcome (A : Type) : Type :=
| Ok (a : A)
| Raise (e : exn).
Arguments Ok {A} a.
Arguments Raise {A} e.

#[global] Instance outcome_ret : MRet outcome := λ A a, Ok a.
#[global] Instance outcome_bind : MBind outcome := λ A B f m,
  match m with
  | Ok a => f a
  | Raise e => Raise e
  end.

(** ** Python floats *)

Module PyFloat.

Definition float : Type := spec_float.

Definition prec : Z := 53.
Definition emax : Z := 1024.

Definition nan : float := S754_nan.
Definition of_Z (n : Z) : float := binary_normalize prec emax n 0 false.
Definition zero : float := of_Z 0.
Definition one : float := of_Z 1.
Definition two : float := of_Z 2.

Definition leb (x y : float) : bool := SFleb x y.
Definition ltb (x y : float) : bool := SFltb x y.
Definition eqb (x y : float) : bool := SFeqb x y.
Definition sub (x y : float) : float := SFsub prec emax x y.
Definition div (x y : float) : float := SFdiv prec emax x y.

(** The binary64 number nearest to [(-1)^neg * m * 10^e], for [0 <= m]:
    what the correctly rounded [strtod] behind [float(str)] returns.
    An integer is rounded directly; a proper fraction is the rounded
    quotient of the two integers [m] and [10^(-e)]. *)
Definition of_decimal (neg : bool) (m e : Z) : float :=
  match m with
  | Zpos p =>
      if 0 <=? e
      then binary_normalize prec emax (cond_Zopp neg (m * 10 ^ e)) 0 neg
      else SFdiv prec emax (S754_finite neg p 0)
                           (S754_finite false (Z.to_pos (10 ^ (- e))) 0)
  | _ => S754_zero neg
  end.

(** [int(x)]: truncation towards zero; raises on infinities and NaN. *)
Definition to_int (x : float) : outcome Z :=
  match x with
  | S754_zero _ => Ok 0
  | S754_finite s m e => Ok (cond_Zopp s (Z.shiftl (Zpos m) e))
  | S754_infinity _ => Raise OverflowError
  | S754_nan => Raise ValueError
  end.

End PyFloat.

Abbreviation float := PyFloat.float.

(** ** Python strings *)

Definition code (c : ascii) : Z := Z.of_N (N_of_ascii c).

Definition is_digit (c : ascii) : bool := (48 <=? code c) && (code c <=? 57).

Definition digit_val (c : ascii) : Z := code c - 48.

(** Whitespace that [float] strips: the six ASCII blanks, and U+0085 and
    U+00A0, which are turned into a blank first. *)
Definition is_space (c : ascii) : bool :=
  let n := code c in
  ((9 <=? n) && (n <=? 13)) || (n =? 32) || (n =? 133) || (n =? 160).

(** [str.lower] on one character below 256. *)
Definition chr_lower (c : ascii) : ascii :=
  let n := code c in
  if ((65 <=? n) && (n <=? 90))
     || ((192 <=? n) && (n <=? 222) && negb (n =? 215))
  then ascii_of_N (Z.to_N (n + 32))
  else c.

Fixpoint lower (s : string) : string :=
  match s with
  | EmptyString => EmptyString
  | String c r => String (chr_lower c) (lower r)
  end.

(** [s[n:]] for [0 <= n] *)
Fixpoint str_drop (n : nat) (s : string) : string :=
  match n, s with
  | O, _ => s
  | S n', String _ r => str_drop n' r
  | S _, EmptyString => EmptyString
  end.

Fixpoint lstrip (s : string) : string :=
  match s with
  | String c r => if is_space c then lstrip r else s
  | EmptyString => EmptyString
  end.

Fixpoint rstrip (s : string) : string :=
  match s with
  | String c r =>
      match rstrip r with
      | EmptyString => if is_space c then EmptyString else String c EmptyString
      | r' => String c r'
      end
  | EmptyString => EmptyString
  end.

Definition strip (s : string) : string := rstrip (lstrip s).

(** [x in xs] for a list of strings *)
Definition str_in (x : string) (xs : list string) : bool :=
  existsb (String.eqb x) xs.

(** [s.replace(c, '')] for a one-character [c] *)
Fixpoint remove_char (c : ascii) (s : string) : string :=
  match s with
  | EmptyString => EmptyString
  | String d r => if Ascii.eqb c d then remove_char c r else String d (remove_char c r)
  end.

(** [s.split(c)] for a one-character separator: never empty. *)
Fixpoint str_split (c : ascii) (s : string) : list string :=
  match s with
  | EmptyString => [EmptyString]
  | String d r =>
      if Ascii.eqb c d then EmptyString :: str_split c r
      else match str_split c r with
           | f :: fs => String d f :: fs
           | [] => [String d EmptyString]
           end
  end.

(** *** [float(str)] *)

Fixpoint span_digits (s : string) : list Z * string :=
  match s with
  | String c r =>
      if is_digit c
      then let '(ds, t) := span_digits r in (digit_val c :: ds, t)
      else ([], s)
  | EmptyString => ([], EmptyString)
  end.

Definition Z_of_digits (ds : list Z) : Z :=
  fold_left (λ a d, 10 * a + d) ds 0.

Definition eat_sign (s : string) : bool * string :=
  match s with
  | String "-" r => (true, r)
  | String "+" r => (false, r)
  | _ => (false, s)
  end.

(** Underscores may only stand between two digits; they are removed. *)
Fixpoint strip_underscores (prev : ascii) (s : string) : option string :=
  match s with
  | EmptyString => if Ascii.eqb prev "_" then None else Some EmptyString
  | String c r =>
      if Ascii.eqb c "_"
      then if is_digit prev then strip_underscores c r else None
      else if Ascii.eqb prev "_" && negb (is_digit c) then None
           else String c <$> strip_underscores c r
  end.

(** The exponent part, when one is there and well formed. *)
Definition parse_exponent (s : string) : option (Z * string) :=
  match s with
  | String c r =>
      if Ascii.eqb c "e" || Ascii.eqb c "E"
      then let '(neg, r1) := eat_sign r in
           let '(ds, r2) := span_digits r1 in
           match ds with
           | [] => None
           | _ => Some (cond_Zopp neg (Z_of_digits ds), r2)
           end
      else None
  | EmptyString => None
  end.

Definition parse_decimal (neg : bool) (s : string) : outcome float :=
  let '(ip, r1) := span_digits s in
  let '(fp, r2) := match r1 with
                   | String "." r => span_digits r
                   | _ => ([], r1)
                   end in
  match (ip ++ fp)%list with
  | [] => Raise ValueError
  | ds =>
      let '(ex, r3) := match parse_exponent r2 with
                       | Some er => er
                       | None => (0, r2)
                       end in
      match r3 with
      | EmptyString =>
          Ok (PyFloat.of_decimal neg (Z_of_digits ds) (ex - Z.of_nat (length fp)))
      | _ => Raise ValueError
      end
  end.

Definition float_of_str (s : string) : outcome float :=
  match strip s with
  | EmptyString => Raise ValueError
  | t =>
      match strip_underscores "000" t with
      | None => Raise ValueError
      | Some u =>
          let '(neg, v) := eat_sign u in
          let w := lower v in
          if String.eqb w "inf" || String.eqb w "infinity"
          then Ok (S754_infinity neg)
          else if String.eqb w "nan" then Ok PyFloat.nan
          else parse_decimal neg v
      end
  end.

(** ** Indexing *)

(** [l[i]] on a Python list: a negative index counts from the end. *)
Definition getitem_list {A : Type} (l : list A) (i : Z) : outcome A :=
  let n := Z.of_nat (length l) in
  let k := if i <? 0 then i + n else i in
  if (0 <=? k) && (k <? n)
  then match l !! Z.to_nat k with
       | Some x => Ok x
       | None => Raise IndexError
       end
  else Raise IndexError.

(** [d[k]] on a Python dict *)
Definition getitem_dict (d : gmap string Z) (k : string) : outcome Z :=
  match d !! k with
  | Some v => Ok v
  | None => Raise KeyError
  end.

(** ** Statements over the mutable list [issues]

    A statement runs on the current content of [issues] and completes
    normally, by a [return], or by an exception; the content of [issues] it
    leaves behind is kept in all three cases. *)

Inductive completion (R A : Type) : Type :=
| Normal (a : A)
| Return (r : R)
| Throw (e : exn).
Arguments Normal {R A} a.
Arguments Return {R A} r.
Arguments Throw {R A} e.

Definition stmt (R A : Type) : Type := list bool → completion R A * list bool.

Section Stmt.
Context {R : Type}.

Definition stmt_ret {A : Type} (a : A) : stmt R A := λ s, (Normal a, s).

Definition stmt_bind {A B : Type} (f : A → stmt R B) (m : stmt R A) : stmt R B :=
  λ s, match m s with
       | (Normal a, s') => f a s'
       | (Return r, s') => (Return r, s')
       | (Throw e, s') => (Throw e, s')
       end.

(** an expression evaluated inside a statement *)
Definition eval {A : Type} (o : outcome A) : stmt R A :=
  λ s, match o with
       | Ok a => (Normal a, s)
       | Raise e => (Throw e, s)
       end.

(** [return r] *)
Definition return_ {A : Type} (r : R) : stmt R A := λ s, (Return r, s).

(** the list object [issues] as it is now *)
Definition get_issues : stmt R (list bool) := λ s, (Normal s, s).

(** [issues[i] = b] *)
Definition set_issue (i : nat) (b : bool) : stmt R unit :=
  λ s, if bool_decide (i < length s)%nat
       then (Normal tt, <[i:=b]> s)
       else (Throw IndexError, s).

(** [try: body except: handler] with a bare [except] *)
Definition try_except {A : Type} (body handler : stmt R A) : stmt R A :=
  λ s, match body s with
       | (Throw _, s') => handler s'
       | done => done
       end.

Definition pass : stmt R unit := stmt_ret tt.

(** [for x in xs: body x] *)
Fixpoint for_each {A : Type} (xs : list A) (body : A → stmt R unit) : stmt R unit :=
  match xs with
  | [] => pass
  | x :: xs' => stmt_bind (λ _, for_each xs' body) (body x)
  end.

End Stmt.

#[global] Instance stmt_mret {R : Type} : MRet (stmt R) := @stmt_ret R.
#[global] Instance stmt_mbind {R : Type} : MBind (stmt R) := @stmt_bind R.

(** A call of a function whose body is [body], with [issues] bound to [s0]:
    the value of the body is the returned value. *)
Definition call {R : Type} (body : stmt R R) (s0 : list bool) : outcome R :=
  match fst (body s0) with
  | Normal r => Ok r
  | Return r => Ok r
  | Throw e => Raise e
  end.

(** ** Constants *)

Inductive verdict : Type :=
| GOOD_ENTRY
| MISSING_P_VALUE
| INVALID_ENTRY.

Definition verdict_code (v : verdict) : Z :=
  match v with
  | GOOD_ENTRY => 0
  | MISSING_P_VALUE => 1
  | INVALID_ENTRY => 2
  end.

#[global] Instance verdict_eq_dec : EqDecision verdict.
Proof. solve_decision. Defined.

Definition INVALID_ROW : nat := 0.
Definition INVALID_RSID : nat := 1.
Definition INVALID_CHR : nat := 2.
Definition INVALID_BP : nat := 3.
Definition INVALID_EA : nat := 4.
Definition INVALID_OA : nat := 5.
Definition INVALID_EAF : nat := 6.
Definition INVALID_SE : nat := 7.
Definition INVALID_ES : nat := 8.

Definition ISSUES : list nat :=
  [INVALID_ROW; INVALID_RSID; INVALID_CHR; INVALID_BP; INVALID_EA;
   INVALID_OA; INVALID_EAF; INVALID_SE; INVALID_ES].

Definition NUCLEOTIDES : list string := ["a"; "t"; "c"; "g"].
Definition NO_NUCLEOTIDE : string := ".".

Definition ALLOW_MULTI_NUCLEOTIDE_POLYMORPHISMS : bool := true.

Definition CATEGORY_CHR : list string :=
  ["1"; "01"; "2"; "02"; "3"; "03"; "4"; "04"; "5"; "05"; "6"; "06";
   "7"; "07"; "8"; "08"; "9"; "09";
   "10"; "11"; "12"; "13"; "14"; "15"; "16"; "17"; "18"; "19"; "20";
   "21"; "22"; "23"; "X"; "x"; "Y"; "y"; "M"; "m"].

(** the column map chosen by the argument ["standard"] *)
Definition standard_cols_i : gmap string Z :=
  list_to_map
    [("Chr", 0); ("BP", 1); ("rsID", 2); ("OA", 3); ("EA", 4); ("EAF", 5);
     ("beta", 6); ("SE", 7); ("pval", 8); ("N", 9); ("INFO", 10)].

(** ** Functions *)

Definition is_null (val : string) : bool :=
  str_in (lower val) [""; " "; "."; "-"; "na"; "nan"].

(** [re.match("^rs\d+$", s)]; [$] matches at the end and also before a
    newline that ends the string. On the strings of this model, of code
    points below 256, the class [\d] is the ten digits [0] to [9]; in
    Python it also has the decimal digits of other scripts. *)
Definition match_rsid (s : string) : bool :=
  match s with
  | String "r" (String "s" r) =>
      let '(ds, t) := span_digits r in
      match ds with
      | [] => false
      | _ => String.eqb t "" || String.eqb t (String "010" "")
      end
  | _ => false
  end.

(** the characters of a string, each as a string of length one *)
Fixpoint chars (s : string) : list string :=
  match s with
  | EmptyString => []
  | String c r => String c "" :: chars r
  end.

(** [0 <= x <= 1] *)
Definition in_unit_interval (x : float) : bool :=
  PyFloat.leb PyFloat.zero x && PyFloat.leb x PyFloat.one.

Definition row_result : Type := option float * verdict * list bool.

Section CheckRow.
Variable cols_i : gmap string Z.
Variable line_cols : list string.

(** [line_cols[cols_i[name]]] *)
Definition column (name : string) : outcome string :=
  i ← getitem_dict cols_i name; getitem_list line_cols i.

(** the checks of the effect allele and of the other allele, which the
    source writes out twice, at the index [idx] of [issues] *)
Definition check_allele (idx : nat) (a : string) : stmt row_result unit :=
  try_except
    (if String.eqb a "" then set_issue idx true
     else if String.eqb a NO_NUCLEOTIDE then set_issue idx false
     else if ALLOW_MULTI_NUCLEOTIDE_POLYMORPHISMS then
       for_each (chars (lower a)) (λ char,
         if negb (str_in char NUCLEOTIDES) then set_issue idx true else pass)
     else
       if negb (str_in (lower a) NUCLEOTIDES) then set_issue idx true else pass)
    (set_issue idx true).

(** the checks of the standard error and of the effect size *)
Definition check_number (idx : nat) (x : string) : stmt row_result unit :=
  try_except
    (_ ← eval (float_of_str x);
     if is_null x then set_issue idx true else pass)
    (set_issue idx true).

(** First check if p-value itself is present *)
Definition read_pval : stmt row_result float :=
  try_except
    (pval ← eval (column "pval");
     missing ← eval (if is_null pval then Ok true
                     else x ← float_of_str pval; Ok (negb (in_unit_interval x)));
     if missing : bool
     then issues ← get_issues; return_ (None, MISSING_P_VALUE, issues)
     else eval (float_of_str pval))
    (issues ← get_issues; return_ (None, MISSING_P_VALUE, issues)).

(** Try getting all columns. If some not present, will throw *)
Definition read_columns (pval : float)
  : stmt row_result (string * string * string * string * string * string * string * string) :=
  try_except
    (rsid ← eval (column "rsID");
     chrom ← eval (column "Chr");
     bp ← eval (column "BP");
     ea ← eval (column "EA");
     oa ← eval (column "OA");
     af ← eval (column "EAF");
     se ← eval (column "SE");
     es ← eval (column "beta");
     mret (rsid, chrom, bp, ea, oa, af, se, es))
    (set_issue INVALID_ROW true;;
     issues ← get_issues; return_ (Some pval, INVALID_ENTRY, issues)).

(** 1. rsID *)
Definition check_rsid (rsid : string) : stmt row_result unit :=
  try_except
    (if negb (match_rsid rsid) then set_issue INVALID_RSID true else pass)
    (set_issue INVALID_RSID true).

(** 2. chromosome *)
Definition check_chrom (chrom : string) : stmt row_result unit :=
  try_except
    (if negb (str_in chrom CATEGORY_CHR)
        && negb (str_in (str_drop 3 chrom) CATEGORY_CHR)
     then set_issue INVALID_CHR true else pass)
    (set_issue INVALID_CHR true).

(** 3. base pair position *)
Definition check_bp (bp : string) : stmt row_result unit :=
  try_except
    (bp ← eval (x ← float_of_str bp; PyFloat.to_int x);
     if bp <? 0 then set_issue INVALID_BP true else pass)
    (set_issue INVALID_BP true).

(** 6. effect allele frequency or minor allele frequency *)
Definition check_eaf (af : string) : stmt row_result unit :=
  try_except
    (x ← eval (float_of_str af);
     if negb (in_unit_interval x) then set_issue INVALID_EAF true else pass)
    (set_issue INVALID_EAF true).

Definition check_row_body : stmt row_result row_result :=
  pval ← read_pval;
  '(rsid, chrom, bp, ea, oa, af, se, es) ← read_columns pval;
  (* Check any reasons this SNP will be discarded later *)
  check_rsid rsid;;
  check_chrom chrom;;
  check_bp bp;;
  (* 4. effect allele *)
  check_allele INVALID_EA ea;;
  (* 5. other allele *)
  check_allele INVALID_OA oa;;
  check_eaf af;;
  (* 7. standard error *)
  check_number INVALID_SE se;;
  (* 8. effect size (odds ratio or beta-value) *)
  check_number INVALID_ES es;;
  issues ← get_issues;
  if existsb id issues
  then return_ (Some pval, INVALID_ENTRY, issues)
  else return_ (Some pval, GOOD_ENTRY, issues).

Definition check_row : outcome row_result :=
  call check_row_body (replicate (length ISSUES) false).

End CheckRow.

(** ** Step 1: the pass over the file

    The file object is the text that is still to be read (newlines already
    translated); the header line has been read before the pass starts. *)

(** [f.readline()]: the next line with its newline, the empty string at the
    end of the file; never an exception. *)
Fixpoint readline (f : string) : string * string :=
  match f with
  | EmptyString => (EmptyString, EmptyString)
  | String c r =>
      if Ascii.eqb c "010" then (String c EmptyString, r)
      else let '(l, r') := readline r in (String c l, r')
  end.

Definition separator : ascii := "009".

(** the three numpy arrays, one slot per SNP *)
Record per_row : Type := {
  SNPs_pval : list float;
  SNPs_report : list verdict;
  SNPs_issues : list (list bool);
}.

(** [a[i] = v] on a numpy array, for [0 <= i] *)
Definition np_setitem {A : Type} (a : list A) (i : nat) (v : A) : outcome (list A) :=
  if bool_decide (i < length a)%nat then Ok (<[i:=v]> a) else Raise IndexError.

(** [a[i]] on a numpy array, for [0 <= i] *)
Definition np_getitem {A : Type} (a : list A) (i : nat) : outcome A :=
  match a !! i with
  | Some x => Ok x
  | None => Raise IndexError
  end.

(** what a [float64] slot holds after [a[i] = p]: [None] is stored as NaN *)
Definition float64_of (p : option float) : float := default PyFloat.nan p.

Record pass_state : Type := {
  GWAS_FILE_o : string;
  arrays : per_row;
  snp_i : nat;
}.

Section Classify.
Variable cols_i : gmap string Z.

(** the fields of one line *)
Definition fields (line : string) : list string :=
  str_split separator (remove_char "010" line).

(** One turn of [while True]. The right-hand side is evaluated first, so
    the line is consumed before the three stores; the first store that
    is out of range raises and leaves the later ones undone. *)
Definition loop_body (st : pass_state) : option exn * pass_state :=
  let '(line, rest) := readline (GWAS_FILE_o st) in
  let a := arrays st in
  let st1 := {| GWAS_FILE_o := rest; arrays := a; snp_i := snp_i st |} in
  match check_row cols_i (fields line) with
  | Raise e => (Some e, st1)
  | Ok (pval, report, issues) =>
      match np_setitem (SNPs_pval a) (snp_i st) (float64_of pval) with
      | Raise e => (Some e, st1)
      | Ok pv =>
          let a1 := {| SNPs_pval := pv; SNPs_report := SNPs_report a;
                       SNPs_issues := SNPs_issues a |} in
          match np_setitem (SNPs_report a) (snp_i st) report with
          | Raise e =>
              (Some e, {| GWAS_FILE_o := rest; arrays := a1; snp_i := snp_i st |})
          | Ok rp =>
              let a2 := {| SNPs_pval := pv; SNPs_report := rp;
                           SNPs_issues := SNPs_issues a |} in
              match np_setitem (SNPs_issues a) (snp_i st) issues with
              | Raise e =>
                  (Some e, {| GWAS_FILE_o := rest; arrays := a2; snp_i := snp_i st |})
              | Ok iss =>
                  (None, {| GWAS_FILE_o := rest;
                            arrays := {| SNPs_pval := pv; SNPs_report := rp;
                                         SNPs_issues := iss |};
                            snp_i := S (snp_i st) |})
              end
          end
      end
  end.

(** [while True: loop_body]: only an exception ends it. [None] when the
    turns allowed by [fuel] do not suffice. *)
Fixpoint while_true (fuel : nat) (st : pass_state) : option (exn * pass_state) :=
  match fuel with
  | O => None
  | S fuel' =>
      match loop_body st with
      | (Some e, st') => Some (e, st')
      | (None, st') => while_true fuel' st'
      end
  end.

(** The pass, started on the arrays [empty] that [np.empty] allocated
    (their content is arbitrary). [IndexError] and [EOFError] end the
    pass; any other exception is raised again. *)
Definition classify (fuel : nat) (empty : per_row) (file : string)
  : option (outcome per_row) :=
  match while_true fuel {| GWAS_FILE_o := file; arrays := empty; snp_i := 0 |} with
  | None => None
  | Some (e, st) =>
      Some match e with
           | IndexError | EOFError => Ok (arrays st)
           | _ => Raise e
           end
  end.

End Classify.

(** ** Step 2.1: widths of the bars *)

(** What the two assertions on [ticks] ask for in their messages: ticks in
    strictly ascending order, in the range from 0 to 1. The expressions of
    the assertions, written with [sorted] and [set], also let some lists
    that hold NaN pass; no list with a NaN is ascending here. *)
Fixpoint strictly_ascending (l : list float) : bool :=
  match l with
  | a :: r => match r with
              | b :: _ => PyFloat.ltb a b && strictly_ascending r
              | [] => true
              end
  | [] => true
  end.

Definition ticks_in_range (l : list float) : bool :=
  match head l, last l with
  | Some a, Some b => PyFloat.leb PyFloat.zero a && PyFloat.leb b PyFloat.one
  | _, _ => false
  end.

Definition ticks_valid (l : list float) : bool :=
  strictly_ascending l && ticks_in_range l.

(** [for i in idx: s = body i s] *)
Fixpoint for_range {S : Type} (idx : list nat) (body : nat → S → outcome S) (s : S)
  : outcome S :=
  match idx with
  | [] => Ok s
  | i :: idx' => s' ← body i s; for_range idx' body s'
  end.

(** a [for] whose body may [break]: the body tells whether it did *)
Fixpoint for_range_break {S : Type} (idx : list nat)
    (body : nat → S → outcome (bool * S)) (s : S) : outcome S :=
  match idx with
  | [] => Ok s
  | i :: idx' =>
      '(stop, s') ← body i s;
      if stop : bool then Ok s' else for_range_break idx' body s'
  end.

(** [range(1, len(l))] *)
Definition range_from_1 {A : Type} (l : list A) : list nat :=
  seq 1 (length l - 1).

Section BarsWidths.
(** [np.log10] on [float64] *)
Variable log10 : float → float.

(** the literal [1e-2] *)
Definition one_hundredth : float := PyFloat.of_decimal false 1 (-2).

Definition unit_width : float :=
  PyFloat.sub (log10 PyFloat.one) (log10 one_hundredth).

Definition log10_width (ticks : list float) (i : nat) (ws : list float)
  : outcome (list float) :=
  t0 ← getitem_list ticks (Z.of_nat i - 1);
  if PyFloat.eqb t0 PyFloat.zero then Ok (ws ++ [PyFloat.two])%list
  else
    t1 ← getitem_list ticks (Z.of_nat i);
    Ok (ws ++ [PyFloat.div (PyFloat.sub (log10 t1) (log10 t0)) unit_width])%list.

Definition bars_widths (ticks_width_rule : string) (ticks : list float)
  : outcome (list float) :=
  if String.eqb ticks_width_rule "even" then
    for_range (range_from_1 ticks) (λ _ ws, Ok (ws ++ [PyFloat.one])%list) [PyFloat.one]
  else if String.eqb ticks_width_rule "log10" then
    for_range (range_from_1 ticks) (log10_width ticks) [PyFloat.one]
  else Raise ValueError.

End BarsWidths.

(** ** Step 2.3: counting the entries of each bin *)

Record bins : Type := {
  missing_pval_bins : list Z;
  good_entry_bins : list Z;
  invalid_entry_bins : list Z;
  invalid_entry_bins_reason_bins : list (list Z);
}.

(** [l[i] += 1] on a list of Python integers *)
Definition incr (l : list Z) (i : nat) : outcome (list Z) :=
  match l !! i with
  | Some x => Ok (<[i := x + 1]> l)
  | None => Raise IndexError
  end.

(** addition of [int64], the element type of the array of reasons *)
Definition wrap64 (x : Z) : Z := (x + 2 ^ 63) mod 2 ^ 64 - 2 ^ 63.

(** [m[j] += flags] on a numpy array of integers, [flags] a row of booleans
    of the same length *)
Definition add_flags (m : list (list Z)) (j : nat) (flags : list bool)
  : outcome (list (list Z)) :=
  match m !! j with
  | Some row =>
      if bool_decide (length row = length flags)
      then Ok (<[j := zip_with (λ x (f : bool), wrap64 (x + Z.b2z f)) row flags]> m)
      else Raise ValueError
  | None => Raise IndexError
  end.

Definition init_bins (ticks : list float) : bins :=
  {| missing_pval_bins := replicate (length ticks) 0;
     good_entry_bins := replicate (length ticks) 0;
     invalid_entry_bins := replicate (length ticks) 0;
     invalid_entry_bins_reason_bins :=
       replicate (length ticks) (replicate (S (max_list ISSUES)) 0) |}.

Section Aggregate.
Variable ticks : list float.
Variable rows : per_row.

(** the body of the inner loop for a good entry *)
Definition good_body (line_i j : nat) (b : bins) : outcome (bool * bins) :=
  p ← np_getitem (SNPs_pval rows) line_i;
  t ← getitem_list ticks (Z.of_nat j);
  if PyFloat.leb p t then
    g ← incr (good_entry_bins b) j;
    Ok (true, {| missing_pval_bins := missing_pval_bins b;
                 good_entry_bins := g;
                 invalid_entry_bins := invalid_entry_bins b;
                 invalid_entry_bins_reason_bins := invalid_entry_bins_reason_bins b |})
  else Ok (false, b).

(** the body of the inner loop for an invalid entry *)
Definition invalid_body (line_i j : nat) (b : bins) : outcome (bool * bins) :=
  p ← np_getitem (SNPs_pval rows) line_i;
  t ← getitem_list ticks (Z.of_nat j);
  if PyFloat.leb p t then
    i ← incr (invalid_entry_bins b) j;
    flags ← np_getitem (SNPs_issues rows) line_i;
    r ← add_flags (invalid_entry_bins_reason_bins b) j flags;
    Ok (true, {| missing_pval_bins := missing_pval_bins b;
                 good_entry_bins := good_entry_bins b;
                 invalid_entry_bins := i;
                 invalid_entry_bins_reason_bins := r |})
  else Ok (false, b).

(** the body of [for line_i in range(len(SNPs_report))] *)
Definition count_row (line_i : nat) (b : bins) : outcome bins :=
  report ← np_getitem (SNPs_report rows) line_i;
  match report with
  | MISSING_P_VALUE =>
      m ← incr (missing_pval_bins b) 0;
      Ok {| missing_pval_bins := m;
            good_entry_bins := good_entry_bins b;
            invalid_entry_bins := invalid_entry_bins b;
            invalid_entry_bins_reason_bins := invalid_entry_bins_reason_bins b |}
  | GOOD_ENTRY => for_range_break (range_from_1 ticks) (good_body line_i) b
  | INVALID_ENTRY => for_range_break (range_from_1 ticks) (invalid_body line_i) b
  end.

Definition count_entries : outcome bins :=
  for_range (seq 0 (length (SNPs_report rows))) count_row (init_bins ticks).

End Aggregate.

(** [sum(l)] *)
Definition sum (l : list Z) : Z := foldr Z.add 0 l.

(** ** The checks in closed form

    What each check of [check_row] leaves in its slot of [issues], as a
    function of the field alone; [check_row_closed_form] relates them to
    the statements above. *)

Definition rsid_flag (rsid : string) : bool := negb (match_rsid rsid).

Definition chrom_flag (chrom : string) : bool :=
  negb (str_in chrom CATEGORY_CHR) && negb (str_in (str_drop 3 chrom) CATEGORY_CHR).

Definition bp_flag (bp : string) : bool :=
  match x ← float_of_str bp; PyFloat.to_int x with
  | Ok n => n <? 0
  | Raise _ => true
  end.

Definition allele_flag (a : string) : bool :=
  if String.eqb a "" then true
  else if String.eqb a NO_NUCLEOTIDE then false
  else if ALLOW_MULTI_NUCLEOTIDE_POLYMORPHISMS
       then existsb (λ char, negb (str_in char NUCLEOTIDES)) (chars (lower a))
       else negb (str_in (lower a) NUCLEOTIDES).

Definition eaf_flag (af : string) : bool :=
  match float_of_str af with
  | Ok x => negb (in_unit_interval x)
  | Raise _ => true
  end.

Definition number_flag (x : string) : bool :=
  match float_of_str x with
  | Ok _ => is_null x
  | Raise _ => true
  end.

(** the p-value of a row, when the first check lets the row pass *)
Definition usable_pval (cols_i : gmap string Z) (line_cols : list string) : option float :=
  match column cols_i line_cols "pval" with
  | Ok pval =>
      if is_null pval then None
      else match float_of_str pval with
           | Ok x => if in_unit_interval x then Some x else None
           | Raise _ => None
           end
  | Raise _ => None
  end.

(** the eight other fields, when every one of them is there *)
Definition other_fields (cols_i : gmap string Z) (line_cols : list string)
  : outcome (string * string * string * string * string * string * string * string) :=
  rsid ← column cols_i line_cols "rsID";
  chrom ← column cols_i line_cols "Chr";
  bp ← column cols_i line_cols "BP";
  ea ← column cols_i line_cols "EA";
  oa ← column cols_i line_cols "OA";
  af ← column cols_i line_cols "EAF";
  se ← column cols_i line_cols "SE";
  es ← column cols_i line_cols "beta";
  Ok (rsid, chrom, bp, ea, oa, af, se, es).

Definition no_issues : list bool := replicate (length ISSUES) false.

Definition field_flags
    (fs : string * string * string * string * string * string * string * string)
  : list bool :=
  let '(rsid, chrom, bp, ea, oa, af, se, es) := fs in
  [false; rsid_flag rsid; chrom_flag chrom; bp_flag bp; allele_flag ea;
   allele_flag oa; eaf_flag af; number_flag se; number_flag es].

Definition check_row_closed (cols_i : gmap string Z) (line_cols : list string)
  : row_result :=
  match usable_pval cols_i line_cols with
  | None => (None, MISSING_P_VALUE, no_issues)
  | Some pval =>
      match other_fields cols_i line_cols with
      | Raise _ => (Some pval, INVALID_ENTRY, <[INVALID_ROW := true]> no_issues)
      | Ok fs =>
          let issues := field_flags fs in
          (Some pval, if existsb id issues then INVALID_ENTRY else GOOD_ENTRY, issues)
      end
  end.

(** ** The counting in closed form *)

(** one classified row as the three arrays hold it *)
Definition slot : Type := float * verdict * list bool.

(** the three arrays that hold a sequence of classified rows *)
Definition arrays_of (rows : list slot) : per_row :=
  {| SNPs_pval := (λ r : slot, r.1.1) <$> rows;
     SNPs_report := (λ r : slot, r.1.2) <$> rows;
     SNPs_issues := (λ r : slot, r.2) <$> rows |}.

(** the slot that [check_row]'s result is stored into *)
Definition stored (r : row_result) : slot := (float64_of r.1.1, r.1.2, r.2).

(** [j] is the first index from 1 on with [p <= ticks[j]] *)
Definition first_bin (ticks : list float) (p : float) (j : nat) : Prop :=
  (1 ≤ j)%nat
  ∧ (∃ t, ticks !! j = Some t ∧ PyFloat.leb p t = true)
  ∧ ∀ k t, (1 ≤ k < j)%nat → ticks !! k = Some t → PyFloat.leb p t = false.

(** no index from 1 on has [p <= ticks[j]] *)
Definition no_bin (ticks : list float) (p : float) : Prop :=
  ∀ k t, (1 ≤ k)%nat → ticks !! k = Some t → PyFloat.leb p t = false.

(** the search of the inner loops *)
Definition find_bin (ticks : list float) (p : float) : option nat :=
  find (λ j, PyFloat.leb p (default PyFloat.nan (ticks !! j))) (range_from_1 ticks).

Definition bump (l : list Z) (j : nat) : list Z := alter (λ x, x + 1) j l.

Definition bump_flags (m : list (list Z)) (j : nat) (flags : list bool) : list (list Z) :=
  alter (λ row, zip_with (λ x (f : bool), wrap64 (x + Z.b2z f)) row flags) j m.

(** what one row adds to the counts *)
Definition count_slot (ticks : list float) (b : bins) (r : slot) : bins :=
  let '(p, report, flags) := r in
  match report with
  | MISSING_P_VALUE =>
      {| missing_pval_bins := bump (missing_pval_bins b) 0;
         good_entry_bins := good_entry_bins b;
         invalid_entry_bins := invalid_entry_bins b;
         invalid_entry_bins_reason_bins := invalid_entry_bins_reason_bins b |}
  | GOOD_ENTRY =>
      match find_bin ticks p with
      | Some j =>
          {| missing_pval_bins := missing_pval_bins b;
             good_entry_bins := bump (good_entry_bins b) j;
             invalid_entry_bins := invalid_entry_bins b;
             invalid_entry_bins_reason_bins := invalid_entry_bins_reason_bins b |}
      | None => b
      end
  | INVALID_ENTRY =>
      match find_bin ticks p with
      | Some j =>
          {| missing_pval_bins := missing_pval_bins b;
             good_entry_bins := good_entry_bins b;
             invalid_entry_bins := bump (invalid_entry_bins b) j;
             invalid_entry_bins_reason_bins :=
               bump_flags (invalid_entry_bins_reason_bins b) j flags |}
      | None => b
      end
  end.

(** the arrays of counts have one entry per tick, the array of reasons one
    row per tick and one column per issue *)
Definition bins_shape (ticks : list float) (b : bins) : Prop :=
  length (missing_pval_bins b) = length ticks
  ∧ length (good_entry_bins b) = length ticks
  ∧ length (invalid_entry_bins b) = length ticks
  ∧ length (invalid_entry_bins_reason_bins b) = length ticks
  ∧ Forall (λ row, length row = length ISSUES) (invalid_entry_bins_reason_bins b).

(** every row of the array of flags has one entry per issue *)
Definition flags_shape (rows : list slot) : Prop :=
  Forall (λ r : slot, length r.2 = length ISSUES) rows.

(** a row with a p-value that no bin takes *)
Definition dropped (ticks : list float) (r : slot) : bool :=
  match r.1.2 with
  | MISSING_P_VALUE => false
  | _ => bool_decide (find_bin ticks r.1.1 = None)
  end.

(** ** Notions used in the statements *)

(** the row of the example of the specification, and the same fields in
    the order of the standard columns *)
Definition example_row : list string :=
  ["rs123"; "chr7"; "10500"; "A"; "G"; "0.3"; "0.01"; "0.02"; "0.04"].

Definition example_row_in_column_order : list string :=
  ["chr7"; "10500"; "rs123"; "A"; "G"; "0.3"; "0.01"; "0.02"; "0.04"].

(** the binary64 number nearest to 0.04, what [float("0.04")] is *)
Definition p_0_04 : float := S754_finite false 5764607523034235 (-57).




(** The reasons for which a row has no usable p-value. *)
Inductive pval_unusable (cols_i : gmap string Z) (line_cols : list string) : Prop :=
| pval_column_absent :
    cols_i !! "pval" = None → pval_unusable cols_i line_cols
| pval_index_out_of_range (i : Z) :
    cols_i !! "pval" = Some i →
    ¬ (- Z.of_nat (length line_cols) ≤ i < Z.of_nat (length line_cols)) →
    pval_unusable cols_i line_cols
| pval_null (i : Z) (pval : string) :
    cols_i !! "pval" = Some i → getitem_list line_cols i = Ok pval →
    lower pval ∈ [""; " "; "."; "-"; "na"; "nan"] →
    pval_unusable cols_i line_cols
| pval_not_a_number (i : Z) (pval : string) (e : exn) :
    cols_i !! "pval" = Some i → getitem_list line_cols i = Ok pval →
    float_of_str pval = Raise e →
    pval_unusable cols_i line_cols
| pval_outside_unit_interval (i : Z) (pval : string) (x : float) :
    cols_i !! "pval" = Some i → getitem_list line_cols i = Ok pval →
    float_of_str pval = Ok x →
    ¬ (PyFloat.leb PyFloat.zero x = true ∧ PyFloat.leb x PyFloat.one = true) →
    pval_unusable cols_i line_cols.

(** the count of one bin, 0 past the end *)
Definition bin_count (l : list Z) (j : nat) : Z := default 0 (l !! j).

(** the rows that the counts cover: the good and the invalid ones of all
    bins, and the ones without p-value of bin 0 *)
Definition counted (b : bins) : Z :=
  sum (good_entry_bins b) + sum (invalid_entry_bins b)
  + bin_count (missing_pval_bins b) 0.

(** The counts cover every row. *)
Definition counts_cover_all_rows (ticks : list float) (rows : list slot) : Prop :=
  ∃ b, count_entries ticks (arrays_of rows) = Ok b
       ∧ counted b = Z.of_nat (length rows).

(** the default ticks *)
Definition default_ticks : list float :=
  [PyFloat.of_decimal false 0 0; PyFloat.of_decimal false 1 (-8);
   PyFloat.of_decimal false 1 (-5); PyFloat.of_decimal false 1 (-3);
   PyFloat.of_decimal false 3 (-2); PyFloat.of_decimal false 3 (-1);
   PyFloat.of_decimal false 1 0].

(** what never changes in bin 0 and in the bins from 1 on *)
Definition bin_0_only_missing (ticks : list float) (b : bins) : Prop :=
  bin_count (good_entry_bins b) 0 = 0
  ∧ bin_count (invalid_entry_bins b) 0 = 0
  ∧ invalid_entry_bins_reason_bins b !! 0%nat = Some (replicate (length ISSUES) 0)
  ∧ ∀ j, (1 ≤ j)%nat → bin_count (missing_pval_bins b) j = 0.

(** the first [n] results of [readline] *)
Fixpoint readlines (n : nat) (file : string) : list string :=
  match n with
  | O => []
  | S n' => let '(line, rest) := readline file in line :: readlines n' rest
  end.

(** the slot that the pass fills from one line *)
Definition classify_line (cols_i : gmap string Z) (line : string) : slot :=
  stored (check_row_closed cols_i (fields line)).

(** a file with the header already read and one data row left *)
Definition one_row_file : string :=
  String.concat (String separator "") example_row_in_column_order ++ String "010" "".

(** the ticks [1e-5] and [1e-3] *)
Definition tick_1e_5 : float := PyFloat.of_decimal false 1 (-5).
Definition tick_1e_3 : float := PyFloat.of_decimal false 1 (-3).

(** [log10] returns the exact logarithm at 1, 1e-2, 1e-3 and 1e-5: what
    the statement about the ticks [1e-5] and [1e-3] asks of [np.log10] *)
Definition log10_exact_on_example (log10 : float → float) : Prop :=
  log10 PyFloat.one = PyFloat.zero
  ∧ log10 one_hundredth = PyFloat.of_Z (-2)
  ∧ log10 tick_1e_3 = PyFloat.of_Z (-3)
  ∧ log10 tick_1e_5 = PyFloat.of_Z (-5).

(** a function with these four values, and NaN elsewhere *)
Definition log10_on_example (x : float) : float :=
  if PyFloat.eqb x PyFloat.one then PyFloat.zero
  else if PyFloat.eqb x one_hundredth then PyFloat.of_Z (-2)
  else if PyFloat.eqb x tick_1e_3 then PyFloat.of_Z (-3)
  else if PyFloat.eqb x tick_1e_5 then PyFloat.of_Z (-5)
  else PyFloat.nan.

(** the width that the rule [log10] gives the bar between two ticks *)
Definition log10_bar_width (log10 : float → float) (t0 t1 : float) : float :=
  if PyFloat.eqb t0 PyFloat.zero then PyFloat.two
  else PyFloat.div (PyFloat.sub (log10 t1) (log10 t0))
                   (PyFloat.sub (log10 PyFloat.one) (log10 one_hundredth)).

(** ** Notions used in the further properties *)

(** every character of [s] satisfies [P] *)
Fixpoint all_chars (P : ascii → bool) (s : string) : bool :=
  match s with
  | EmptyString => true
  | String c r => P c && all_chars P r
  end.

(** the character [c] occurs in [s] *)
Fixpoint has_char (c : ascii) (s : string) : bool :=
  match s with
  | EmptyString => false
  | String d r => Ascii.eqb c d || has_char c r
  end.

(** the columns that [check_row] looks up *)
Definition checked_columns : list string :=
  ["pval"; "rsID"; "Chr"; "BP"; "EA"; "OA"; "EAF"; "SE"; "beta"].

(** the columns after the p-value, in the order in which they are read *)
Definition other_columns : list string :=
  ["rsID"; "Chr"; "BP"; "EA"; "OA"; "EAF"; "SE"; "beta"].

(** [check_row] keeps the p-value [pval] and leaves the flag [idx] false
    exactly when [P] holds, and sets it otherwise. *)
Definition flag_rule (idx : nat) (P : Prop)
    (cols_i : gmap string Z) (line_cols : list string) (pval : float) : Prop :=
  ∃ report issues,
    check_row cols_i line_cols = Ok (Some pval, report, issues)
    ∧ (issues !! idx = Some false ↔ P)
    ∧ (issues !! idx = Some true ↔ ¬ P).

(** how often the character [c] occurs in [s] *)
Fixpoint count_char (c : ascii) (s : string) : nat :=
  match s with
  | EmptyString => O
  | String d r => (if Ascii.eqb c d then 1 else 0) + count_char c r
  end.

(** ** Step 2.2: location of the ticks *)

Definition float_add (x y : float) : float := SFadd PyFloat.prec PyFloat.emax x y.
Definition float_opp (x : float) : float := SFopp x.

(** one turn of [for width in bars_widths] *)
Definition ticks_loc_step (st : float * list float) (width : float)
  : float * list float :=
  let cumulative := float_add st.1 width in
  (cumulative, (st.2 ++ [cumulative])%list).

Definition ticks_loc (bars_widths : list float) : outcome (list float) :=
  w0 ← getitem_list bars_widths 0;
  Ok (foldl ticks_loc_step (float_opp w0, []) bars_widths).2.

(** the assertion on the lengths of [ticks], [bars_widths] and [ticks_loc] *)
Definition lengths_agree (ticks bars_widths ticks_loc : list float) : Prop :=
  length ticks = length bars_widths ∧ length bars_widths = length ticks_loc.

(** ** Step 3: the numbers of the report *)

Definition ISSUES_LABELS : list string :=
  ["format"; "rsID"; "Chr"; "BP"; "EA"; "OA"; "EAF"; "SE"; "beta"].

(** [sum(xs)] for a list of [int64]: every addition wraps *)
Definition sum_int64 (xs : list Z) : Z := foldl (λ a x, wrap64 (a + x)) 0 xs.

(** [m[i][j]] on a numpy array of two dimensions *)
Definition np_getitem2 (m : list (list Z)) (i j : nat) : outcome Z :=
  row ← np_getitem m i; np_getitem row j.

(** [sum([invalid_entry_bins_reason_bins[i][issue_i]
          for i in range(len(invalid_entry_bins))])] *)
Definition issue_total (b : bins) (issue_i : nat) : outcome Z :=
  cells ← mapM (λ i, np_getitem2 (invalid_entry_bins_reason_bins b) i issue_i)
               (seq 0 (length (invalid_entry_bins b)));
  Ok (sum_int64 cells).

Definition issues_count (b : bins) (num_of_snps : Z) : outcome (gmap string Z) :=
  d ← for_range (seq 0 (length ISSUES))
        (λ issue_i d,
           total ← issue_total b issue_i;
           label ← getitem_list ISSUES_LABELS (Z.of_nat issue_i);
           Ok (<[label := total]> d))
        ∅;
  Ok (<["total_entries" := num_of_snps]> (<["pval" := sum (missing_pval_bins b)]> d)).

(** [sum(invalid_entry_bins) + sum(missing_pval_bins)] *)
Definition invalid_entries_totally (b : bins) : Z :=
  sum (invalid_entry_bins b) + sum (missing_pval_bins b).

(** the number of rows that satisfy [P] *)
Definition count_rows (P : slot → bool) (rows : list slot) : Z :=
  Z.of_nat (length (filter (λ r, P r = true) rows)).

Definition is_missing (r : slot) : bool := bool_decide (r.1.2 = MISSING_P_VALUE).
Definition is_invalid (r : slot) : bool := bool_decide (r.1.2 = INVALID_ENTRY).
Definition is_good (r : slot) : bool := bool_decide (r.1.2 = GOOD_ENTRY).

(** an invalid row that some bin takes and that has the flag [k] set *)
Definition flagged_in_a_bin (ticks : list float) (k : nat) (r : slot) : bool :=
  is_invalid r && negb (dropped ticks r) && default false (r.2 !! k).

(** the sum of the column [k] of the array of reasons *)
Definition column_sum (m : list (list Z)) (k : nat) : Z :=
  sum ((λ row, default 0 (row !! k)) <$> m).

(** ** Notions used in the corrected statements *)

(** A good row whose p-value is the tick [ticks[j]] is counted in the bin
    [j], the bin that ends at this tick, and nowhere else. *)
Definition tie_counted_at_its_tick (ticks : list float) : Prop :=
  ∀ j t, ticks !! j = Some t →
    count_row ticks (arrays_of [(t, GOOD_ENTRY, no_issues)]) 0 (init_bins ticks)
    = Ok {| missing_pval_bins := missing_pval_bins (init_bins ticks);
            good_entry_bins := bump (good_entry_bins (init_bins ticks)) j;
            invalid_entry_bins := invalid_entry_bins (init_bins ticks);
            invalid_entry_bins_reason_bins :=
              invalid_entry_bins_reason_bins (init_bins ticks) |}.



(** a character of ASCII *)
Definition is_ascii (c : ascii) : bool := code c <? 128.

(** what the counting keeps true of the array of reasons and of the missing
    counts, [done] being the rows counted so far *)
Definition report_invariant (ticks : list float) (done : list slot) (b : bins) : Prop :=
  bins_shape ticks b
  ∧ sum (missing_pval_bins b) = count_rows is_missing done
  ∧ sum (invalid_entry_bins b)
    = count_rows (λ r, is_invalid r && negb (dropped ticks r)) done
  ∧ sum (good_entry_bins b)
    = count_rows (λ r, is_good r && negb (dropped ticks r)) done
  ∧ (∀ k, column_sum (invalid_entry_bins_reason_bins b) k
          = count_rows (flagged_in_a_bin ticks k) done)
  ∧ Forall (Forall (λ x, 0 ≤ x ≤ Z.of_nat (length done)))
           (invalid_entry_bins_reason_bins b).

(** the same for the three lists of counts alone *)
Definition verdict_counts (ticks : list float) (done : list slot) (b : bins) : Prop :=
  bins_shape ticks b
  ∧ sum (good_entry_bins b) = count_rows (λ r, is_good r && negb (dropped ticks r)) done
  ∧ sum (invalid_entry_bins b)
    = count_rows (λ r, is_invalid r && negb (dropped ticks r)) done
  ∧ sum (missing_pval_bins b) = count_rows is_missing done.

(** * Properties *)

(** ** Examples *)

(** [float(str)] rounds to the nearest binary64 number, ties to even,
    overflows to infinity and underflows to zero. *)
Example float_of_str_rounding :
  float_of_str <$> ["0.1"; "1e23"; "9007199254740993"; "5e-324";
                    "2.4703282292062328e-324"; "2.4703282292062327e-324";
                    "1.7976931348623159e308"; "1.7976931348623157e308"; "-0.0"]
  = Ok <$> [S754_finite false 7205759403792794 (-56);
            S754_finite false 5960464477539062 24;
            S754_finite false 4503599627370496 1;
            S754_finite false 1 (-1074);
            S754_finite false 1 (-1074);
            S754_zero false;
            S754_infinity false;
            S754_finite false 9007199254740991 971;
            S754_zero true].
Proof. vm_compute. reflexivity. Qed.

Example float_of_str_accepts :
  float_of_str <$> [" 1_0.2_5e0_1 "; ".5"; "1."; "+1E-2"; "-Infinity"; "NaN"]
  = Ok <$> [S754_finite false 7212796278210560 (-46);
            S754_finite false 4503599627370496 (-53);
            S754_finite false 4503599627370496 (-52);
            S754_finite false 5764607523034235 (-59);
            S754_infinity true;
            S754_nan].
Proof. vm_compute. reflexivity. Qed.

Example float_of_str_rejects :
  float_of_str <$> [""; " "; "."; "1e"; "e5"; "1__0"; "_1"; "1_"; "1 0"; "0x10"; "chr7"]
  = replicate 11 (Raise ValueError).
Proof. vm_compute. reflexivity. Qed.

Example to_int_truncates :
  (λ s, x ← float_of_str s; PyFloat.to_int x) <$> ["-0.5"; "-1.5e3"; "1e22"; "inf"; "nan"]
  = [Ok 0; Ok (-1500); Ok 10000000000000000000000;
     Raise OverflowError; Raise ValueError].
Proof. vm_compute. reflexivity. Qed.

Example getitem_list_indices :
  getitem_list ["a"; "b"] <$> [0; 1; 2; -1; -2; -3]
  = [Ok "a"; Ok "b"; Raise IndexError; Ok "b"; Ok "a"; Raise IndexError].
Proof. vm_compute. reflexivity. Qed.

Example match_rsid_examples :
  match_rsid <$> ["rs123"; "123"; "rs123abc"; "rs"; "RS1"; String "r" (String "s" (String "1" (String "010" "")))]
  = [true; false; false; false; false; true].
Proof. vm_compute. reflexivity. Qed.

Example fields_of_a_line :
  fields (String.concat (String separator "") ["a"; ""; "b"] ++ String "010" "")
  = ["a"; ""; "b"]
  ∧ fields "" = [""].
Proof. split; vm_compute; reflexivity. Qed.

(** the examples of the specification for the single checks *)
Example flags_of_the_specification :
  allele_flag "acgt" = false
  ∧ eaf_flag "1.5" = true ∧ eaf_flag "0" = false
  ∧ rsid_flag "123" = true ∧ rsid_flag "rs123abc" = true
  ∧ chrom_flag "chr7" = false.
Proof. repeat split; vm_compute; reflexivity. Qed.

Example default_ticks_are_valid : ticks_valid default_ticks = true.
Proof. vm_compute. reflexivity. Qed.

(** ** The statements of [check_row], one by one *)

Section BlockLemmas.
Context {R : Type}.

Lemma set_issue_run (i : nat) (b : bool) (s : list bool) :
  (i < length s)%nat → @set_issue R i b s = (Normal tt, <[i:=b]> s).
Proof. intros H. unfold set_issue. by rewrite bool_decide_eq_true_2. Qed.

Lemma flag_block_run (i : nat) (b : bool) (s : list bool) :
  (i < length s)%nat → s !! i = Some false →
  (if b then @set_issue R i true else pass) s = (Normal tt, <[i:=b]> s).
Proof.
  intros Hi Hs. destruct b.
  - by apply set_issue_run.
  - unfold pass, stmt_ret. by rewrite list_insert_id.
Qed.
End BlockLemmas.

Lemma check_rsid_run rsid s :
  (INVALID_RSID < length s)%nat → s !! INVALID_RSID = Some false →
  check_rsid rsid s = (Normal tt, <[INVALID_RSID := rsid_flag rsid]> s).
Proof.
  intros Hl Hs. unfold check_rsid, try_except, rsid_flag.
  by rewrite flag_block_run.
Qed.

Lemma check_chrom_run chrom s :
  (INVALID_CHR < length s)%nat → s !! INVALID_CHR = Some false →
  check_chrom chrom s = (Normal tt, <[INVALID_CHR := chrom_flag chrom]> s).
Proof.
  intros Hl Hs. unfold check_chrom, try_except, chrom_flag.
  by rewrite flag_block_run.
Qed.

Lemma check_bp_run bp s :
  (INVALID_BP < length s)%nat → s !! INVALID_BP = Some false →
  check_bp bp s = (Normal tt, <[INVALID_BP := bp_flag bp]> s).
Proof.
  intros Hl Hs. unfold check_bp, try_except, bp_flag, mbind, stmt_mbind, stmt_bind, eval.
  destruct (float_of_str bp) as [x|e]; simpl.
  - destruct (PyFloat.to_int x) as [n|e]; simpl.
    + by rewrite flag_block_run.
    + by rewrite set_issue_run.
  - by rewrite set_issue_run.
Qed.

Lemma check_eaf_run af s :
  (INVALID_EAF < length s)%nat → s !! INVALID_EAF = Some false →
  check_eaf af s = (Normal tt, <[INVALID_EAF := eaf_flag af]> s).
Proof.
  intros Hl Hs. unfold check_eaf, try_except, eaf_flag, mbind, stmt_mbind, stmt_bind, eval.
  destruct (float_of_str af) as [x|e]; simpl.
  - by rewrite flag_block_run.
  - by rewrite set_issue_run.
Qed.

Lemma check_number_run idx x s :
  (idx < length s)%nat → s !! idx = Some false →
  check_number idx x s = (Normal tt, <[idx := number_flag x]> s).
Proof.
  intros Hl Hs. unfold check_number, try_except, number_flag, mbind, stmt_mbind, stmt_bind, eval.
  destruct (float_of_str x) as [y|e]; simpl.
  - by rewrite flag_block_run.
  - by rewrite set_issue_run.
Qed.

Lemma for_each_flag_run (idx : nat) (bad : string → bool) (xs : list string) (s : list bool) :
  (idx < length s)%nat →
  for_each (R := row_result) xs (λ x, if bad x then set_issue idx true else pass) s
  = (Normal tt, if existsb bad xs then <[idx := true]> s else s).
Proof.
  revert s. induction xs as [|x xs IH]; intros s Hl; simpl; [done|].
  unfold stmt_bind. destruct (bad x); simpl.
  - rewrite set_issue_run by done. rewrite IH by (by rewrite length_insert).
    rewrite list_insert_insert_eq. by destruct (existsb bad xs).
  - unfold pass at 1, stmt_ret. by apply IH.
Qed.

Lemma check_allele_run idx a s :
  (idx < length s)%nat → s !! idx = Some false →
  check_allele idx a s = (Normal tt, <[idx := allele_flag a]> s).
Proof.
  intros Hl Hs. unfold check_allele, try_except, allele_flag.
  destruct (String.eqb a ""); [by rewrite set_issue_run|].
  destruct (String.eqb a NO_NUCLEOTIDE); [by rewrite set_issue_run|].
  destruct ALLOW_MULTI_NUCLEOTIDE_POLYMORPHISMS.
  - rewrite for_each_flag_run by done.
    destruct (existsb _ _); [done|]. by rewrite list_insert_id.
  - by rewrite flag_block_run.
Qed.

Lemma read_pval_run cols_i line_cols s :
  read_pval cols_i line_cols s
  = match usable_pval cols_i line_cols with
    | Some x => (Normal x, s)
    | None => (Return (None, MISSING_P_VALUE, s), s)
    end.
Proof.
  unfold read_pval, usable_pval, try_except, mbind, stmt_mbind, stmt_bind, eval.
  destruct (column cols_i line_cols "pval") as [pval|e]; simpl; [|done].
  destruct (is_null pval); simpl; [done|].
  destruct (float_of_str pval) as [x|e]; simpl; [|done].
  by destruct (in_unit_interval x).
Qed.

Lemma read_columns_run cols_i line_cols pval s :
  (INVALID_ROW < length s)%nat →
  read_columns cols_i line_cols pval s
  = match other_fields cols_i line_cols with
    | Ok fs => (Normal fs, s)
    | Raise _ =>
        (Return (Some pval, INVALID_ENTRY, <[INVALID_ROW := true]> s),
         <[INVALID_ROW := true]> s)
    end.
Proof.
  intros Hl.
  unfold read_columns, other_fields, try_except, mbind, stmt_mbind, outcome_bind,
    stmt_bind, eval.
  repeat match goal with
         | |- context [column cols_i line_cols ?n] =>
             destruct (column cols_i line_cols n); simpl;
             [|by rewrite set_issue_run]
         end.
  done.
Qed.

Lemma check_row_closed_form cols_i line_cols :
  check_row cols_i line_cols = Ok (check_row_closed cols_i line_cols).
Proof.
  unfold check_row, call, check_row_body, check_row_closed.
  unfold mbind at 1, stmt_mbind at 1, stmt_bind at 1.
  rewrite read_pval_run.
  destruct (usable_pval cols_i line_cols) as [pval|]; [|done].
  unfold mbind at 1, stmt_mbind at 1, stmt_bind at 1.
  rewrite read_columns_run by (cbv; lia).
  destruct (other_fields cols_i line_cols) as [[[[[[[[rsid chrom] bp] ea] oa] af] se] es]|e];
    [|done].
  change (replicate (length ISSUES) false) with
    [false; false; false; false; false; false; false; false; false].
  unfold mbind, stmt_mbind, stmt_bind.
  rewrite check_rsid_run by first [reflexivity | cbv; lia]. cbn [list_insert INVALID_RSID].
  rewrite check_chrom_run by first [reflexivity | cbv; lia]. cbn [list_insert INVALID_CHR].
  rewrite check_bp_run by first [reflexivity | cbv; lia]. cbn [list_insert INVALID_BP].
  rewrite (check_allele_run INVALID_EA) by first [reflexivity | cbv; lia]. cbn [list_insert INVALID_EA].
  rewrite (check_allele_run INVALID_OA) by first [reflexivity | cbv; lia]. cbn [list_insert INVALID_OA].
  rewrite check_eaf_run by first [reflexivity | cbv; lia]. cbn [list_insert INVALID_EAF].
  rewrite (check_number_run INVALID_SE) by first [reflexivity | cbv; lia]. cbn [list_insert INVALID_SE].
  rewrite (check_number_run INVALID_ES) by first [reflexivity | cbv; lia]. cbn [list_insert INVALID_ES].
  unfold get_issues, return_, field_flags.
  by destruct (existsb id _).
Qed.

(** ** The row validator *)

Lemma str_in_elem_of (x : string) (xs : list string) :
  str_in x xs = true ↔ x ∈ xs.
Proof.
  unfold str_in. rewrite existsb_exists. split.
  - intros (y & Hy & Heq). apply String.eqb_eq in Heq as ->. by apply list_elem_of_In.
  - intros Hx. exists x. split; [by apply list_elem_of_In|]. apply String.eqb_refl.
Qed.

Lemma str_in_not_elem_of (x : string) (xs : list string) :
  str_in x xs = false ↔ x ∉ xs.
Proof. rewrite <- str_in_elem_of. by destruct (str_in x xs). Qed.

Lemma getitem_list_out_of_range {A : Type} (l : list A) (i : Z) :
  ¬ (- Z.of_nat (length l) ≤ i < Z.of_nat (length l)) →
  getitem_list l i = Raise IndexError.
Proof.
  intros Hi. unfold getitem_list.
  destruct (i <? 0) eqn:Hneg.
  - replace ((0 <=? i + Z.of_nat (length l)) && (i + Z.of_nat (length l) <? Z.of_nat (length l)))
      with false; [done|].
    symmetry. apply andb_false_iff. lia.
  - replace ((0 <=? i) && (i <? Z.of_nat (length l))) with false; [done|].
    symmetry. apply andb_false_iff. lia.
Qed.

Lemma pval_unusable_None (cols_i : gmap string Z) (line_cols : list string) :
  pval_unusable cols_i line_cols → usable_pval cols_i line_cols = None.
Proof.
  unfold usable_pval, column, getitem_dict.
  intros [Hc | i Hc Hi | i pval Hc Hg Hn | i pval e Hc Hg Hf | i pval x Hc Hg Hf Hx];
    rewrite Hc; simpl; [done| | | |].
  - by rewrite getitem_list_out_of_range.
  - rewrite Hg. unfold is_null. apply str_in_elem_of in Hn. by rewrite Hn.
  - rewrite Hg, Hf. by destruct (is_null pval).
  - rewrite Hg, Hf. destruct (is_null pval); [done|].
    unfold in_unit_interval. destruct (PyFloat.leb PyFloat.zero x) eqn:H0; [|done].
    destruct (PyFloat.leb x PyFloat.one) eqn:H1; [|done]. by destruct Hx.
Qed.

(** C5: a row whose p-value column is absent or out of range, or whose
    p-value is null-like, not a number, or outside [0, 1], is classified
    [MISSING_P_VALUE] with no p-value and nine false flags, whatever its
    other fields hold: every row with the same p-value field gets the same
    result, be its other fields valid, invalid or missing. *)
Theorem missing_pval_takes_priority (cols_i : gmap string Z) (line_cols : list string) :
  pval_unusable cols_i line_cols →
  check_row cols_i line_cols = Ok (None, MISSING_P_VALUE, no_issues)
  ∧ ∀ line_cols',
      column cols_i line_cols' "pval" = column cols_i line_cols "pval" →
      check_row cols_i line_cols' = Ok (None, MISSING_P_VALUE, no_issues).
Proof.
  intros Hun. apply pval_unusable_None in Hun.
  rewrite !check_row_closed_form. unfold check_row_closed. rewrite Hun.
  split; [done|]. intros line_cols' Hsame.
  rewrite check_row_closed_form. unfold check_row_closed.
  replace (usable_pval cols_i line_cols') with (usable_pval cols_i line_cols); [by rewrite Hun|].
  unfold usable_pval. by rewrite Hsame.
Qed.

Lemma missing_pval_takes_priority_witness :
  check_row standard_cols_i
    ["chr7"; "10500"; "rs123"; "A"; "G"; "0.3"; "0.01"; "0.02"; "NA"]
  = Ok (None, MISSING_P_VALUE, no_issues).
Proof.
  refine (proj1 (missing_pval_takes_priority standard_cols_i _
                   (pval_null _ _ 8 "NA" _ _ _))).
  - vm_compute. reflexivity.
  - vm_compute. reflexivity.
  - vm_compute. do 4 apply list_elem_of_further. apply list_elem_of_here.
Defined.

(** C8: [check_row] is total and raises nothing: for every list of fields
    and every column map it returns a p-value, a verdict and a list of nine
    flags; whatever is wrong with a field ends in a verdict or a flag. *)
Theorem check_row_never_raises (cols_i : gmap string Z) (line_cols : list string) :
  ∃ (pval : option float) (report : verdict) (issues : list bool),
    check_row cols_i line_cols = Ok (pval, report, issues)
    ∧ length issues = length ISSUES.
Proof.
  rewrite check_row_closed_form. unfold check_row_closed.
  destruct (usable_pval cols_i line_cols) as [pval|]; [|by eauto].
  destruct (other_fields cols_i line_cols) as [[[[[[[[rsid chrom] bp] ea] oa] af] se] es]|e];
    by eauto.
Qed.

(** C9: every row gets one verdict; with [GOOD_ENTRY] the nine flags are
    all false, with [INVALID_ENTRY] at least one flag is true, with
    [MISSING_P_VALUE] there is no p-value. *)
Theorem check_row_verdict_consistent (cols_i : gmap string Z) (line_cols : list string) :
  ∃ (pval : option float) (report : verdict) (issues : list bool),
    check_row cols_i line_cols = Ok (pval, report, issues)
    ∧ (report = GOOD_ENTRY → issues = no_issues)
    ∧ (report = INVALID_ENTRY → ∃ i, issues !! i = Some true)
    ∧ (report = MISSING_P_VALUE → pval = None).
Proof.
  rewrite check_row_closed_form. unfold check_row_closed.
  destruct (usable_pval cols_i line_cols) as [pval|].
  2: { eexists _, _, _. split; [done|]. repeat split; done. }
  destruct (other_fields cols_i line_cols) as [[[[[[[[rsid chrom] bp] ea] oa] af] se] es]|e].
  2: { eexists _, _, _. split; [done|]. repeat split; try done. by exists INVALID_ROW. }
  eexists _, _, _. split; [done|].
  destruct (existsb id _) eqn:Hany; repeat split; try done.
  - intros _. apply existsb_exists in Hany as (b & Hb & Hid).
    unfold id in Hid. subst b.
    apply list_elem_of_In, list_elem_of_lookup in Hb. done.
  - intros _. unfold field_flags in *.
    destruct (rsid_flag rsid), (chrom_flag chrom), (bp_flag bp), (allele_flag ea),
      (allele_flag oa), (eaf_flag af), (number_flag se), (number_flag es);
      simpl in Hany; done.
Qed.






(** C1, as the code has it: in the row of the example the column 2, read
    as rsID, holds ["10500"], and the column 1, read as BP, holds ["chr7"];
    the verdict is [INVALID_ENTRY] with the p-value 0.04 and the flags of
    rsID and BP set. The same fields in the order of the standard columns
    give [GOOD_ENTRY], the p-value 0.04 and nine false flags. *)
Theorem example_row_checked :
  float_of_str "0.04" = Ok p_0_04
  ∧ check_row standard_cols_i example_row
    = Ok (Some p_0_04, INVALID_ENTRY,
          [false; true; false; true; false; false; false; false; false])
  ∧ check_row standard_cols_i example_row_in_column_order
    = Ok (Some p_0_04, GOOD_ENTRY, no_issues).
Proof. repeat split; vm_compute; reflexivity. Qed.

(** C1, as stated, fails: the verdict of the row of the example is not
    [GOOD_ENTRY], and two of its flags are set. *)
Lemma example_row_counterexample :
  check_row standard_cols_i example_row ≠ Ok (Some p_0_04, GOOD_ENTRY, no_issues).
Proof. vm_compute. discriminate. Qed.

(** [p_0_04] is within half a unit in the last place of 4/100:
    [|m * 2^-57 - 1/25| <= 2^-58]. *)
Lemma p_0_04_nearest :
  ∃ m, p_0_04 = S754_finite false m (-57)
       ∧ 2 * Z.abs (25 * Z.pos m - 2 ^ 57) ≤ 25.
Proof. eexists. split; [reflexivity|]. vm_compute. discriminate. Qed.

(** ** Lists as Python lists and numpy arrays *)

Lemma getitem_list_nat {A : Type} (l : list A) (j : nat) (x : A) :
  l !! j = Some x → getitem_list l (Z.of_nat j) = Ok x.
Proof.
  intros Hj. pose proof (lookup_lt_Some _ _ _ Hj) as Hlt.
  unfold getitem_list.
  replace (Z.of_nat j <? 0) with false by lia.
  replace ((0 <=? Z.of_nat j) && (Z.of_nat j <? Z.of_nat (length l))) with true
    by (symmetry; apply andb_true_iff; lia).
  by rewrite Nat2Z.id, Hj.
Qed.

Lemma incr_bump (l : list Z) (j : nat) :
  (j < length l)%nat → incr l j = Ok (bump l j).
Proof.
  intros Hj. unfold incr, bump.
  destruct (lookup_lt_is_Some_2 l j Hj) as [x Hx]. rewrite Hx. f_equal.
  apply list_eq. intros k. destruct (decide (j = k)) as [->|Hne].
  - rewrite list_lookup_insert_eq, list_lookup_alter_eq, Hx by done. done.
  - by rewrite list_lookup_insert_ne, list_lookup_alter_ne.
Qed.

Lemma add_flags_bump (m : list (list Z)) (j : nat) (flags : list bool) :
  (j < length m)%nat → Forall (λ row, length row = length flags) m →
  add_flags m j flags = Ok (bump_flags m j flags).
Proof.
  intros Hj Hm. unfold add_flags, bump_flags.
  destruct (lookup_lt_is_Some_2 m j Hj) as [row Hrow]. rewrite Hrow.
  rewrite bool_decide_eq_true_2
    by (exact (Forall_lookup_1 (λ row, length row = length flags) m j row Hm Hrow)).
  f_equal. apply list_eq. intros k. destruct (decide (j = k)) as [->|Hne].
  - rewrite list_lookup_insert_eq, list_lookup_alter_eq, Hrow by done. done.
  - by rewrite list_lookup_insert_ne, list_lookup_alter_ne.
Qed.

Lemma sum_bump (l : list Z) (j : nat) :
  (j < length l)%nat → sum (bump l j) = sum l + 1.
Proof.
  revert j. induction l as [|x l IH]; intros j Hj; simpl in *; [lia|].
  destruct j as [|j].
  - unfold sum, bump; simpl. lia.
  - specialize (IH j ltac:(lia)). unfold sum, bump in *; simpl in *. lia.
Qed.

Lemma range_from_1_bound {A : Type} (l : list A) (j : nat) :
  j ∈ range_from_1 l ↔ (1 ≤ j < length l)%nat.
Proof. unfold range_from_1. rewrite elem_of_seq. lia. Qed.

(** ** The inner loops find the first bin *)

Section Scan.
Variable ticks : list float.
Variable rows : per_row.
Variable line_i : nat.
Variable p : float.
Hypothesis Hp : SNPs_pval rows !! line_i = Some p.

Let hit (j : nat) : bool := PyFloat.leb p (default PyFloat.nan (ticks !! j)).

Lemma good_body_step (j : nat) (t : float) (b : bins) :
  ticks !! j = Some t → (j < length (good_entry_bins b))%nat →
  good_body ticks rows line_i j b
  = Ok (if PyFloat.leb p t
        then (true, {| missing_pval_bins := missing_pval_bins b;
                       good_entry_bins := bump (good_entry_bins b) j;
                       invalid_entry_bins := invalid_entry_bins b;
                       invalid_entry_bins_reason_bins :=
                         invalid_entry_bins_reason_bins b |})
        else (false, b)).
Proof.
  intros Ht Hj. unfold good_body, np_getitem. rewrite Hp. simpl.
  rewrite (getitem_list_nat _ _ _ Ht). simpl.
  destruct (PyFloat.leb p t); [|done]. by rewrite incr_bump.
Qed.

Lemma invalid_body_step (flags : list bool) (j : nat) (t : float) (b : bins) :
  SNPs_issues rows !! line_i = Some flags →
  ticks !! j = Some t → (j < length (invalid_entry_bins b))%nat →
  (j < length (invalid_entry_bins_reason_bins b))%nat →
  Forall (λ row, length row = length flags) (invalid_entry_bins_reason_bins b) →
  invalid_body ticks rows line_i j b
  = Ok (if PyFloat.leb p t
        then (true, {| missing_pval_bins := missing_pval_bins b;
                       good_entry_bins := good_entry_bins b;
                       invalid_entry_bins := bump (invalid_entry_bins b) j;
                       invalid_entry_bins_reason_bins :=
                         bump_flags (invalid_entry_bins_reason_bins b) j flags |})
        else (false, b)).
Proof.
  intros Hf Ht Hj Hr Hrows. unfold invalid_body, np_getitem. rewrite Hp. simpl.
  rewrite (getitem_list_nat _ _ _ Ht). simpl.
  destruct (PyFloat.leb p t); [|done].
  rewrite incr_bump by done. simpl. rewrite Hf. simpl.
  by rewrite add_flags_bump.
Qed.

Lemma good_body_scan (idx : list nat) (b : bins) :
  Forall (λ j, j < length ticks)%nat idx →
  length (good_entry_bins b) = length ticks →
  for_range_break idx (good_body ticks rows line_i) b
  = Ok match find hit idx with
       | Some j =>
           {| missing_pval_bins := missing_pval_bins b;
              good_entry_bins := bump (good_entry_bins b) j;
              invalid_entry_bins := invalid_entry_bins b;
              invalid_entry_bins_reason_bins := invalid_entry_bins_reason_bins b |}
       | None => b
       end.
Proof.
  induction 1 as [|j idx Hj Hidx IH]; intros Hb; simpl; [done|].
  destruct (lookup_lt_is_Some_2 ticks j Hj) as [t Ht].
  rewrite (good_body_step j t) by (done || lia). simpl.
  unfold hit at 1. rewrite Ht. simpl.
  destruct (PyFloat.leb p t); [done|]. by apply IH.
Qed.

Lemma invalid_body_scan (flags : list bool) (idx : list nat) (b : bins) :
  SNPs_issues rows !! line_i = Some flags →
  Forall (λ j, j < length ticks)%nat idx →
  length (invalid_entry_bins b) = length ticks →
  length (invalid_entry_bins_reason_bins b) = length ticks →
  Forall (λ row, length row = length flags) (invalid_entry_bins_reason_bins b) →
  for_range_break idx (invalid_body ticks rows line_i) b
  = Ok match find hit idx with
       | Some j =>
           {| missing_pval_bins := missing_pval_bins b;
              good_entry_bins := good_entry_bins b;
              invalid_entry_bins := bump (invalid_entry_bins b) j;
              invalid_entry_bins_reason_bins :=
                bump_flags (invalid_entry_bins_reason_bins b) j flags |}
       | None => b
       end.
Proof.
  intros Hf. induction 1 as [|j idx Hj Hidx IH]; intros Hb Hr Hrows; simpl; [done|].
  destruct (lookup_lt_is_Some_2 ticks j Hj) as [t Ht].
  rewrite (invalid_body_step flags j t) by (done || lia). simpl.
  unfold hit at 1. rewrite Ht. simpl.
  destruct (PyFloat.leb p t); [done|]. by apply IH.
Qed.
End Scan.

Lemma range_from_1_Forall (ticks : list float) :
  Forall (λ j, j < length ticks)%nat (range_from_1 ticks).
Proof. apply Forall_forall. intros j Hj. apply range_from_1_bound in Hj. lia. Qed.

(** one turn of the loop over the rows adds [count_slot] *)
Lemma count_row_slot (ticks : list float) (rows : list slot) (line_i : nat)
    (r : slot) (b : bins) :
  ticks ≠ [] → bins_shape ticks b → rows !! line_i = Some r →
  length r.2 = length ISSUES →
  count_row ticks (arrays_of rows) line_i b = Ok (count_slot ticks b r).
Proof.
  intros Hne (Hm & Hg & Hi & Hr & Hrows) Hrow Hfl.
  destruct r as [[p report] flags]. simpl in Hfl.
  unfold count_row, np_getitem, arrays_of at 1; simpl.
  rewrite list_lookup_fmap, Hrow. simpl.
  destruct report.
  - erewrite good_body_scan; eauto using range_from_1_Forall.
    simpl. by rewrite list_lookup_fmap, Hrow.
  - rewrite incr_bump; [done|]. rewrite Hm. destruct ticks; [done|simpl; lia].
  - erewrite (invalid_body_scan _ _ _ p); eauto using range_from_1_Forall.
    + simpl. by rewrite list_lookup_fmap, Hrow.
    + simpl. by rewrite list_lookup_fmap, Hrow.
    + by rewrite Hfl.
Qed.

Lemma init_bins_shape (ticks : list float) : bins_shape ticks (init_bins ticks).
Proof.
  unfold bins_shape, init_bins; simpl. rewrite !length_replicate.
  repeat split; try done. apply Forall_replicate. rewrite ?length_replicate. reflexivity.
Qed.

Lemma count_slot_shape (ticks : list float) (b : bins) (r : slot) :
  length r.2 = length ISSUES → bins_shape ticks b → bins_shape ticks (count_slot ticks b r).
Proof.
  intros Hfl (Hm & Hg & Hi & Hr & Hrows). destruct r as [[p report] flags].
  simpl in Hfl. unfold count_slot, bins_shape.
  destruct report; [destruct (find_bin ticks p)| |destruct (find_bin ticks p)]; simpl;
    unfold bump, bump_flags; rewrite ?length_alter; repeat split; try done.
  apply Forall_alter; [done|]. intros row _ Hrow.
  rewrite length_zip_with_l_eq; [done|]. by rewrite Hrow.
Qed.

Lemma count_entries_from (ticks : list float) (pre rows : list slot) (b : bins) :
  ticks ≠ [] → bins_shape ticks b → flags_shape rows →
  for_range (seq (length pre) (length rows))
            (count_row ticks (arrays_of (pre ++ rows))) b
  = Ok (foldl (count_slot ticks) b rows).
Proof.
  intros Hne. revert pre b.
  induction rows as [|r rows IH]; intros pre b Hb Hfl; simpl; [done|].
  apply Forall_cons in Hfl as [Hr Hfl].
  rewrite (count_row_slot ticks _ _ r) by (done || by apply list_lookup_middle).
  simpl. specialize (IH (pre ++ [r])%list (count_slot ticks b r)).
  rewrite <- app_assoc, length_app in IH. simpl in IH.
  replace (length pre + 1)%nat with (S (length pre)) in IH by lia.
  apply IH; [by apply count_slot_shape|done].
Qed.

Lemma count_entries_fold (ticks : list float) (rows : list slot) :
  ticks ≠ [] → flags_shape rows →
  count_entries ticks (arrays_of rows)
  = Ok (foldl (count_slot ticks) (init_bins ticks) rows).
Proof.
  intros Hne Hfl. unfold count_entries.
  replace (length (SNPs_report (arrays_of rows))) with (length rows)
    by (simpl; by rewrite length_fmap).
  by apply (count_entries_from ticks []); [|apply init_bins_shape|].
Qed.

Lemma foldl_count_slot_shape (ticks : list float) (rows : list slot) (b : bins) :
  flags_shape rows → bins_shape ticks b →
  bins_shape ticks (foldl (count_slot ticks) b rows).
Proof.
  revert b. induction rows as [|r rows IH]; intros b Hfl Hb; simpl; [done|].
  apply Forall_cons in Hfl as [Hr Hfl]. apply IH; [done|]. by apply count_slot_shape.
Qed.

(** ** [find_bin] finds the first bin *)

Lemma find_bin_Some (ticks : list float) (p : float) (j : nat) :
  find_bin ticks p = Some j ↔ first_bin ticks p j.
Proof.
  unfold find_bin, first_bin, range_from_1.
  set (hit := λ j, PyFloat.leb p (default PyFloat.nan (ticks !! j))).
  assert (Hgen : ∀ n a, find hit (seq a n) = Some j ↔
            (a ≤ j < a + n)%nat ∧ hit j = true ∧ ∀ k, (a ≤ k < j)%nat → hit k = false).
  { induction n as [|n IH]; intros a; simpl.
    - split; [done|]. lia.
    - destruct (hit a) eqn:Ha.
      + split.
        * intros [= <-]. repeat split; try lia. done.
        * intros (Hj & Hh & Hk). f_equal.
          destruct (decide (a = j)) as [|Hne]; [done|].
          rewrite Hk in Ha by lia. done.
      + rewrite IH. split.
        * intros (Hj & Hh & Hk). repeat split; try lia; [done|].
          intros k Hk'. destruct (decide (k = a)) as [->|]; [done|]. apply Hk. lia.
        * intros (Hj & Hh & Hk). assert (a ≠ j) by (intros ->; congruence).
          repeat split; try lia; [done|]. intros k Hk'. apply Hk. lia. }
  rewrite Hgen. unfold hit. split.
  - intros (Hj & Hh & Hk). split; [lia|]. split.
    + destruct (lookup_lt_is_Some_2 ticks j ltac:(lia)) as [t Ht].
      exists t. rewrite Ht in Hh. done.
    + intros k t Hkj Ht. specialize (Hk k ltac:(lia)). by rewrite Ht in Hk.
  - intros (Hj & (t & Ht & Hh) & Hk). pose proof (lookup_lt_Some _ _ _ Ht).
    split; [lia|]. split; [by rewrite Ht|].
    intros k Hkj. destruct (lookup_lt_is_Some_2 ticks k ltac:(lia)) as [tk Htk].
    rewrite Htk. simpl. by apply (Hk k).
Qed.

Lemma find_bin_None (ticks : list float) (p : float) :
  find_bin ticks p = None ↔ no_bin ticks p.
Proof.
  unfold no_bin. split.
  - intros Hnone k t Hk Ht. pose proof (lookup_lt_Some _ _ _ Ht) as Hlt.
    unfold find_bin in Hnone. pose proof (find_none _ _ Hnone k) as Hk'.
    simpl in Hk'. rewrite Ht in Hk'. apply Hk'.
    apply list_elem_of_In, range_from_1_bound. lia.
  - intros Hno. destruct (find_bin ticks p) as [j|] eqn:Hfind; [|done].
    apply find_bin_Some in Hfind as (Hj & (t & Ht & Hle) & _).
    rewrite (Hno j t) in Hle; done.
Qed.

Lemma first_bin_unique (ticks : list float) (p : float) (j j' : nat) :
  first_bin ticks p j → first_bin ticks p j' → j = j'.
Proof. rewrite <- !find_bin_Some. congruence. Qed.

(** ** The order of floats *)

Ltac float_cases :=
  repeat match goal with
         | x : float |- _ => destruct x as [[]|[]| |[] ? ?]
         end;
  simpl; try done.

Ltac compare_cases :=
  change (Pos.compare_cont Eq) with Pos.compare in *;
  repeat match goal with
         | H : context [Z.compare ?x ?y] |- _ => destruct (Z.compare_spec x y); simpl in H
         | |- context [Z.compare ?x ?y] => destruct (Z.compare_spec x y); simpl
         | H : context [Pos.compare ?x ?y] |- _ => destruct (Pos.compare_spec x y); simpl in H
         | |- context [Pos.compare ?x ?y] => destruct (Pos.compare_spec x y); simpl
         end;
  try done; try lia.

Lemma float_le_lt_trans (x y z : float) :
  PyFloat.leb x y = true → PyFloat.ltb y z = true → PyFloat.ltb x z = true.
Proof.
  unfold PyFloat.leb, PyFloat.ltb, SFleb, SFltb.
  float_cases; intros H1 H2; compare_cases.
Qed.

Lemma float_lt_le (x y : float) :
  PyFloat.ltb x y = true → PyFloat.leb x y = true.
Proof.
  unfold PyFloat.leb, PyFloat.ltb, SFleb, SFltb.
  by destruct (SFcompare x y) as [[]|].
Qed.

Lemma float_lt_not_ge (x y : float) :
  PyFloat.ltb x y = true → PyFloat.leb y x = false.
Proof.
  unfold PyFloat.leb, PyFloat.ltb, SFleb, SFltb.
  float_cases; intros H1; compare_cases.
Qed.

Lemma float_eq_not_lt (x y : float) :
  PyFloat.eqb x y = true → PyFloat.ltb x y = false.
Proof.
  unfold PyFloat.eqb, PyFloat.ltb, SFeqb, SFltb.
  by destruct (SFcompare x y) as [[]|].
Qed.

Lemma float_eq_le (x y : float) :
  PyFloat.eqb x y = true → PyFloat.leb x y = true.
Proof.
  unfold PyFloat.eqb, PyFloat.leb, SFeqb, SFleb.
  by destruct (SFcompare x y) as [[]|].
Qed.

(** in ascending ticks an earlier tick is below a later one *)
Lemma strictly_ascending_lookup (ticks : list float) (k j : nat) (s t : float) :
  strictly_ascending ticks = true → (k < j)%nat →
  ticks !! k = Some s → ticks !! j = Some t → PyFloat.ltb s t = true.
Proof.
  revert k j s t. induction ticks as [|a ticks IH]; intros k j s t Hasc Hkj Hk Hj; [done|].
  destruct j as [|j]; [lia|]. simpl in Hj.
  destruct ticks as [|b ticks]; [done|].
  simpl in Hasc. apply andb_true_iff in Hasc as [Hab Hasc].
  destruct k as [|k]; simpl in Hk.
  - injection Hk as <-. destruct j as [|j]; simpl in Hj.
    + by injection Hj as <-.
    + apply (float_le_lt_trans _ b); [by apply float_lt_le|].
      by apply (IH 0%nat (S j)); [|lia| |].
  - by apply (IH k j); [|lia| |].
Qed.

(** a p-value equal to a tick is above every earlier tick *)
Lemma tie_first_bin (ticks : list float) (p t : float) (j : nat) :
  strictly_ascending ticks = true → (1 ≤ j)%nat → ticks !! j = Some t →
  PyFloat.eqb p t = true → first_bin ticks p j.
Proof.
  intros Hasc Hj Ht Heq. split; [done|]. split.
  - exists t. split; [done|]. by apply float_eq_le.
  - intros k s Hk Hs. destruct (PyFloat.leb p s) eqn:Hle; [|done].
    pose proof (strictly_ascending_lookup ticks k j s t Hasc ltac:(lia) Hs Ht) as Hst.
    pose proof (float_le_lt_trans _ _ _ Hle Hst) as Hlt.
    by rewrite float_eq_not_lt in Hlt.
Qed.

(** a p-value above the last tick is above every tick *)
Lemma above_last_no_bin (ticks : list float) (p t : float) :
  strictly_ascending ticks = true → last ticks = Some t →
  PyFloat.ltb t p = true → no_bin ticks p.
Proof.
  intros Hasc Hlast Hlt k s Hk Hs.
  destruct (PyFloat.leb p s) eqn:Hle; [|done].
  rewrite last_lookup in Hlast.
  pose proof (lookup_lt_Some _ _ _ Hs) as Hklt.
  destruct (decide (k = Nat.pred (length ticks))) as [->|Hne].
  - rewrite Hlast in Hs. injection Hs as <-.
    by rewrite (float_lt_not_ge _ _ Hlt) in Hle.
  - pose proof (strictly_ascending_lookup ticks k (Nat.pred (length ticks)) s t Hasc
                  ltac:(lia) Hs Hlast) as Hst.
    pose proof (float_le_lt_trans _ _ _ Hle Hst) as Hpt.
    apply float_lt_le in Hpt. by rewrite (float_lt_not_ge _ _ Hlt) in Hpt.
Qed.

(** ** The counts *)

Lemma find_bin_from_1 (ticks : list float) (p : float) (j : nat) :
  find_bin ticks p = Some j → (1 ≤ j < length ticks)%nat.
Proof.
  intros (Hj & (t & Ht & _) & _)%find_bin_Some.
  pose proof (lookup_lt_Some _ _ _ Ht). lia.
Qed.

Lemma bin_count_bump_ne (l : list Z) (i j : nat) :
  i ≠ j → bin_count (bump l i) j = bin_count l j.
Proof. intros Hne. unfold bin_count, bump. by rewrite list_lookup_alter_ne. Qed.

Lemma bin_count_bump_eq (l : list Z) (j : nat) :
  (j < length l)%nat → bin_count (bump l j) j = bin_count l j + 1.
Proof.
  intros Hj. unfold bin_count, bump. rewrite list_lookup_alter_eq.
  by destruct (lookup_lt_is_Some_2 l j Hj) as [x ->].
Qed.

(** a row adds one to the counts unless it is dropped *)
Lemma counted_count_slot (ticks : list float) (b : bins) (r : slot) :
  ticks ≠ [] → bins_shape ticks b →
  counted (count_slot ticks b r) = counted b + (if dropped ticks r then 0 else 1).
Proof.
  intros Hne (Hm & Hg & Hi & _). destruct r as [[p report] flags].
  unfold counted, count_slot, dropped; simpl.
  destruct report; simpl.
  - destruct (find_bin ticks p) as [j|] eqn:Hfind.
    + apply find_bin_from_1 in Hfind. rewrite bool_decide_eq_false_2 by done.
      simpl. rewrite sum_bump by lia. lia.
    + rewrite bool_decide_eq_true_2 by done. lia.
  - rewrite bin_count_bump_eq; [lia|]. rewrite Hm. destruct ticks; [done|simpl; lia].
  - destruct (find_bin ticks p) as [j|] eqn:Hfind.
    + apply find_bin_from_1 in Hfind. rewrite bool_decide_eq_false_2 by done.
      simpl. rewrite sum_bump by lia. lia.
    + rewrite bool_decide_eq_true_2 by done. lia.
Qed.

Lemma counted_foldl (ticks : list float) (rows : list slot) (b : bins) :
  ticks ≠ [] → flags_shape rows → bins_shape ticks b →
  counted (foldl (count_slot ticks) b rows)
  + Z.of_nat (length (filter (λ r, dropped ticks r = true) rows))
  = counted b + Z.of_nat (length rows).
Proof.
  intros Hne. revert b. induction rows as [|r rows IH]; intros b Hfl Hb; simpl; [lia|].
  apply Forall_cons in Hfl as [Hr Hfl].
  specialize (IH (count_slot ticks b r) Hfl (count_slot_shape _ _ _ Hr Hb)).
  rewrite counted_count_slot in IH by done.
  rewrite filter_cons. destruct (dropped ticks r) eqn:Hd.
  - rewrite decide_True by done. simpl length. lia.
  - rewrite decide_False by done. lia.
Qed.

Lemma sum_replicate_0 (n : nat) : sum (replicate n 0) = 0.
Proof. induction n as [|n IH]; [done|]. unfold sum in *; simpl. lia. Qed.

Lemma counted_init_bins (ticks : list float) : counted (init_bins ticks) = 0.
Proof.
  unfold counted, init_bins, bin_count; simpl. rewrite !sum_replicate_0.
  by destruct ticks.
Qed.

Lemma ticks_valid_nonempty (ticks : list float) : ticks_valid ticks = true → ticks ≠ [].
Proof. by destruct ticks. Qed.

(** a p-value that is at most the last of two or more ticks finds a bin *)
Lemma below_last_not_dropped (ticks : list float) (p t : float) :
  (2 ≤ length ticks)%nat → last ticks = Some t → PyFloat.leb p t = true →
  find_bin ticks p ≠ None.
Proof.
  intros Hlen Hlast Hle Hnone. rewrite last_lookup in Hlast.
  apply find_bin_None in Hnone.
  rewrite (Hnone (Nat.pred (length ticks)) t) in Hle; [done|lia|done].
Qed.

Lemma not_dropped_filter (ticks : list float) (rows : list slot) :
  (∀ r, r ∈ rows → dropped ticks r = false) →
  filter (λ r, dropped ticks r = true) rows = [].
Proof.
  induction rows as [|r rows IH]; intros Hall; [done|].
  rewrite filter_cons, decide_False.
  - apply IH. intros r' Hr'. apply Hall. by apply list_elem_of_further.
  - rewrite Hall; [done|]. apply list_elem_of_here.
Qed.

(** C2, as the code has it: the good and invalid counts of all bins and the
    missing count of bin 0 add up to the number of rows less the good and
    invalid rows whose p-value is above every tick from index 1 on, which
    no bin takes; they add up to the number of rows when there are two
    ticks or more and no good or invalid row has a p-value above the last
    tick. *)
Theorem counts_cover_rows_up_to_last_tick (ticks : list float) (rows : list slot) :
  ticks_valid ticks = true → flags_shape rows →
  ∃ b, count_entries ticks (arrays_of rows) = Ok b
    ∧ counted b + Z.of_nat (length (filter (λ r, dropped ticks r = true) rows))
      = Z.of_nat (length rows)
    ∧ ((2 ≤ length ticks)%nat →
       (∀ r t, r ∈ rows → r.1.2 ≠ MISSING_P_VALUE → last ticks = Some t →
               PyFloat.leb r.1.1 t = true) →
       counts_cover_all_rows ticks rows).
Proof.
  intros Hvalid Hfl. pose proof (ticks_valid_nonempty _ Hvalid) as Hne.
  pose proof (counted_foldl ticks rows (init_bins ticks) Hne Hfl (init_bins_shape ticks))
    as Hsum.
  rewrite counted_init_bins in Hsum.
  eexists. split; [by apply count_entries_fold|]. split; [lia|].
  intros Hlen Hbelow. eexists. split; [by apply count_entries_fold|].
  rewrite not_dropped_filter in Hsum; [simpl in Hsum; lia|].
  intros r Hr. unfold dropped.
  destruct (last ticks) as [t|] eqn:Hlast; [|by destruct ticks using rev_ind;
    [|rewrite last_snoc in Hlast]].
  destruct (r.1.2) eqn:Hreport; [|done|];
    apply bool_decide_eq_false_2, (below_last_not_dropped _ _ t); try done;
    apply Hbelow; try done; by rewrite Hreport.
Qed.

Lemma counts_cover_rows_up_to_last_tick_witness :
  counts_cover_all_rows default_ticks
    [(p_0_04, GOOD_ENTRY, no_issues);
     (PyFloat.nan, MISSING_P_VALUE, no_issues);
     (PyFloat.one, INVALID_ENTRY, <[INVALID_BP := true]> no_issues)].
Proof.
  destruct (counts_cover_rows_up_to_last_tick default_ticks
              [(p_0_04, GOOD_ENTRY, no_issues);
               (PyFloat.nan, MISSING_P_VALUE, no_issues);
               (PyFloat.one, INVALID_ENTRY, <[INVALID_BP := true]> no_issues)])
    as (b & _ & _ & Hall).
  - vm_compute. reflexivity.
  - repeat constructor.
  - apply Hall.
    + vm_compute. lia.
    + intros r t Hr Hm [= <-].
      apply elem_of_cons in Hr as [->|Hr]; [by vm_compute|].
      apply elem_of_cons in Hr as [->|Hr]; [done|].
      apply list_elem_of_singleton in Hr as ->. by vm_compute.
Defined.

(** C2, as stated, fails: with the ticks 0 and 0.5, which are ascending and
    within [0, 1], a good row with the p-value 0.7 is counted nowhere. *)
Lemma counts_cover_all_rows_counterexample :
  ticks_valid [PyFloat.zero; PyFloat.of_decimal false 5 (-1)] = true
  ∧ ¬ counts_cover_all_rows [PyFloat.zero; PyFloat.of_decimal false 5 (-1)]
        [(PyFloat.of_decimal false 7 (-1), GOOD_ENTRY, no_issues)].
Proof.
  split; [vm_compute; reflexivity|].
  intros (b & Hb & Hsum). vm_compute in Hb. injection Hb as <-.
  vm_compute in Hsum. discriminate.
Qed.

Lemma bin_0_only_missing_init (ticks : list float) :
  ticks ≠ [] → bin_0_only_missing ticks (init_bins ticks).
Proof.
  intros Hne. unfold bin_0_only_missing, init_bins, bin_count; simpl.
  destruct ticks as [|t ticks]; [done|]. repeat split; try done.
  intros j Hj. destruct (decide (j < length (t :: ticks))%nat).
  - by rewrite lookup_replicate_2.
  - rewrite (proj1 (lookup_replicate_None _ _ _)); [done|lia].
Qed.

Lemma bin_0_only_missing_count_slot (ticks : list float) (b : bins) (r : slot) :
  bin_0_only_missing ticks b → bin_0_only_missing ticks (count_slot ticks b r).
Proof.
  intros (Hg & Hi & Hr & Hm). destruct r as [[p report] flags].
  unfold bin_0_only_missing, count_slot.
  destruct report; [destruct (find_bin ticks p) as [j|] eqn:Hfind| |
                    destruct (find_bin ticks p) as [j|] eqn:Hfind];
    simpl; try apply find_bin_from_1 in Hfind; repeat split; try done.
  - rewrite bin_count_bump_ne; [done|lia].
  - intros j Hj. rewrite bin_count_bump_ne; [by apply Hm|lia].
  - rewrite bin_count_bump_ne; [done|lia].
  - unfold bump_flags. rewrite list_lookup_alter_ne; [done|lia].
Qed.

Lemma bin_0_only_missing_foldl (ticks : list float) (rows : list slot) (b : bins) :
  bin_0_only_missing ticks b → bin_0_only_missing ticks (foldl (count_slot ticks) b rows).
Proof.
  revert b. induction rows as [|r rows IH]; intros b Hb; simpl; [done|].
  by apply IH, bin_0_only_missing_count_slot.
Qed.

(** C10: after the counting, the good count and the invalid count of bin 0
    are zero and its row of reasons is all zeros, and the missing count of
    every bin from 1 on is zero. *)
Theorem bin_0_counts_only_missing_rows (ticks : list float) (rows : list slot) :
  ticks ≠ [] → flags_shape rows →
  ∃ b, count_entries ticks (arrays_of rows) = Ok b
    ∧ good_entry_bins b !! 0%nat = Some 0
    ∧ invalid_entry_bins b !! 0%nat = Some 0
    ∧ invalid_entry_bins_reason_bins b !! 0%nat = Some (replicate (length ISSUES) 0)
    ∧ ∀ j, (1 ≤ j < length ticks)%nat → missing_pval_bins b !! j = Some 0.
Proof.
  intros Hne Hfl. eexists. split; [by apply count_entries_fold|].
  pose proof (foldl_count_slot_shape ticks rows _ Hfl (init_bins_shape ticks))
    as (Hlm & Hlg & Hli & _).
  pose proof (bin_0_only_missing_foldl ticks rows _ (bin_0_only_missing_init _ Hne))
    as (Hg & Hi & Hr & Hm).
  set (b := foldl (count_slot ticks) (init_bins ticks) rows) in *.
  assert (Hpos : (0 < length ticks)%nat) by (destruct ticks; [done|simpl; lia]).
  unfold bin_count in *. repeat split; try done.
  - destruct (lookup_lt_is_Some_2 (good_entry_bins b) 0%nat ltac:(lia)) as [x Hx].
    rewrite Hx in *. simpl in Hg. by subst.
  - destruct (lookup_lt_is_Some_2 (invalid_entry_bins b) 0%nat ltac:(lia)) as [x Hx].
    rewrite Hx in *. simpl in Hi. by subst.
  - intros j Hj. specialize (Hm j ltac:(lia)).
    destruct (lookup_lt_is_Some_2 (missing_pval_bins b) j ltac:(lia)) as [x Hx].
    rewrite Hx in *. simpl in Hm. by subst.
Qed.

Lemma bin_0_counts_only_missing_rows_witness :
  ∃ b, count_entries default_ticks
         (arrays_of [(p_0_04, GOOD_ENTRY, no_issues);
                     (PyFloat.nan, MISSING_P_VALUE, no_issues)]) = Ok b
    ∧ good_entry_bins b !! 0%nat = Some 0
    ∧ invalid_entry_bins b !! 0%nat = Some 0
    ∧ invalid_entry_bins_reason_bins b !! 0%nat = Some (replicate (length ISSUES) 0)
    ∧ ∀ j, (1 ≤ j < length default_ticks)%nat → missing_pval_bins b !! j = Some 0.
Proof.
  apply bin_0_counts_only_missing_rows.
  - discriminate.
  - repeat constructor.
Defined.

(** C6: a good or invalid row with the p-value [p] is counted in the first
    bin [j] from 1 on with [p <= ticks[j]], and nowhere else: one count of
    that bin goes up by one and nothing else changes. There is one such
    bin at most; with strictly ascending ticks a p-value equal to
    [ticks[j]], [j >= 1], has [j] as its bin, and a p-value above the last
    tick has none and changes no count. A row without p-value adds one to
    the missing count of bin 0 and changes nothing else. *)
Theorem count_row_takes_first_bin (ticks : list float) (rows : list slot)
    (line_i : nat) (p : float) (report : verdict) (flags : list bool) (b : bins) :
  ticks ≠ [] → bins_shape ticks b →
  rows !! line_i = Some (p, report, flags) → length flags = length ISSUES →
  (report = GOOD_ENTRY → ∀ j, first_bin ticks p j →
     count_row ticks (arrays_of rows) line_i b
     = Ok {| missing_pval_bins := missing_pval_bins b;
             good_entry_bins := bump (good_entry_bins b) j;
             invalid_entry_bins := invalid_entry_bins b;
             invalid_entry_bins_reason_bins := invalid_entry_bins_reason_bins b |})
  ∧ (report = INVALID_ENTRY → ∀ j, first_bin ticks p j →
     count_row ticks (arrays_of rows) line_i b
     = Ok {| missing_pval_bins := missing_pval_bins b;
             good_entry_bins := good_entry_bins b;
             invalid_entry_bins := bump (invalid_entry_bins b) j;
             invalid_entry_bins_reason_bins :=
               bump_flags (invalid_entry_bins_reason_bins b) j flags |})
  ∧ (report ≠ MISSING_P_VALUE → no_bin ticks p →
     count_row ticks (arrays_of rows) line_i b = Ok b)
  ∧ (report = MISSING_P_VALUE →
     count_row ticks (arrays_of rows) line_i b
     = Ok {| missing_pval_bins := bump (missing_pval_bins b) 0;
             good_entry_bins := good_entry_bins b;
             invalid_entry_bins := invalid_entry_bins b;
             invalid_entry_bins_reason_bins := invalid_entry_bins_reason_bins b |})
  ∧ (∀ j j', first_bin ticks p j → first_bin ticks p j' → j = j')
  ∧ (strictly_ascending ticks = true →
     ∀ j t, (1 ≤ j)%nat → ticks !! j = Some t → PyFloat.eqb p t = true →
            first_bin ticks p j)
  ∧ (strictly_ascending ticks = true →
     ∀ t, last ticks = Some t → PyFloat.ltb t p = true → no_bin ticks p).
Proof.
  intros Hne Hb Hrow Hfl.
  rewrite (count_row_slot ticks rows line_i (p, report, flags)) by done.
  unfold count_slot. split_and!.
  - intros -> j Hj. apply find_bin_Some in Hj. by rewrite Hj.
  - intros -> j Hj. apply find_bin_Some in Hj. by rewrite Hj.
  - intros Hrep Hno. apply find_bin_None in Hno. rewrite Hno. by destruct report.
  - by intros ->.
  - apply first_bin_unique.
  - intros Hasc j t. by apply tie_first_bin.
  - intros Hasc t. by apply above_last_no_bin.
Qed.

Lemma count_row_takes_first_bin_witness :
  count_row default_ticks
    (arrays_of [(PyFloat.of_decimal false 1 (-3), GOOD_ENTRY, no_issues)]) 0
    (init_bins default_ticks)
  = Ok {| missing_pval_bins := missing_pval_bins (init_bins default_ticks);
          good_entry_bins := bump (good_entry_bins (init_bins default_ticks)) 3;
          invalid_entry_bins := invalid_entry_bins (init_bins default_ticks);
          invalid_entry_bins_reason_bins :=
            invalid_entry_bins_reason_bins (init_bins default_ticks) |}.
Proof.
  destruct (count_row_takes_first_bin default_ticks
              [(PyFloat.of_decimal false 1 (-3), GOOD_ENTRY, no_issues)] 0
              (PyFloat.of_decimal false 1 (-3)) GOOD_ENTRY no_issues
              (init_bins default_ticks))
    as (Hgood & _ & _ & _ & _ & Htie & _).
  - discriminate.
  - apply init_bins_shape.
  - reflexivity.
  - reflexivity.
  - apply Hgood; [reflexivity|].
    apply (Htie eq_refl 3%nat (PyFloat.of_decimal false 1 (-3))).
    + lia.
    + reflexivity.
    + vm_compute. reflexivity.
Defined.

(** A p-value equal to the first tick is not counted in bin 0, the bin that
    ends at this tick: the search starts at bin 1, and with the default
    ticks a good row with the p-value 0 is counted in bin 1. *)
Lemma tie_at_tick_0_counterexample : ¬ tie_counted_at_its_tick default_ticks.
Proof.
  intros Htie. specialize (Htie 0%nat _ eq_refl).
  vm_compute in Htie. discriminate.
Qed.

(** ** The pass over the file *)

Lemma np_setitem_middle {A : Type} (l1 l2 : list A) (x v : A) :
  np_setitem (l1 ++ x :: l2) (length l1) v = Ok (l1 ++ v :: l2)%list.
Proof.
  unfold np_setitem.
  rewrite bool_decide_eq_true_2 by (rewrite length_app; simpl; lia).
  f_equal. rewrite insert_app_r_alt by lia. by rewrite Nat.sub_diag.
Qed.

Lemma np_setitem_end {A : Type} (l : list A) (v : A) :
  np_setitem l (length l) v = Raise IndexError.
Proof. unfold np_setitem. by rewrite bool_decide_eq_false_2 by lia. Qed.

(** a turn with a free slot stores the classification of the next line *)
Lemma loop_body_store (cols_i : gmap string Z) (done garbage : list slot) (g : slot)
    (file : string) :
  loop_body cols_i {| GWAS_FILE_o := file;
                      arrays := arrays_of (done ++ g :: garbage);
                      snp_i := length done |}
  = (None, {| GWAS_FILE_o := (readline file).2;
              arrays := arrays_of ((done ++ [classify_line cols_i (readline file).1])
                                   ++ garbage);
              snp_i := S (length done) |}).
Proof.
  unfold loop_body. cbn [GWAS_FILE_o arrays snp_i]. destruct (readline file) as [line rest].
  rewrite check_row_closed_form.
  unfold classify_line, stored. cbn [fst snd].
  destruct (check_row_closed cols_i (fields line)) as [[pval report] issues]. simpl.
  rewrite !fmap_app, !fmap_cons.
  rewrite <- (length_fmap (λ r : slot, r.1.1) done) at 1. rewrite np_setitem_middle.
  rewrite <- (length_fmap (λ r : slot, r.1.2) done) at 1. rewrite np_setitem_middle.
  rewrite <- (length_fmap (λ r : slot, r.2) done) at 1. rewrite np_setitem_middle.
  unfold arrays_of. rewrite <- !app_assoc, !fmap_app. simpl. done.
Qed.

(** a turn without a free slot raises [IndexError] *)
Lemma loop_body_full (cols_i : gmap string Z) (done : list slot) (file : string) :
  (loop_body cols_i {| GWAS_FILE_o := file; arrays := arrays_of done;
                       snp_i := length done |}).1
  = Some IndexError.
Proof.
  unfold loop_body. cbn [GWAS_FILE_o arrays snp_i]. destruct (readline file) as [line rest].
  rewrite check_row_closed_form.
  destruct (check_row_closed cols_i (fields line)) as [[pval report] issues]. simpl.
  rewrite <- (length_fmap (λ r : slot, r.1.1) done) at 1. by rewrite np_setitem_end.
Qed.

Lemma while_true_fills (cols_i : gmap string Z) (garbage done : list slot)
    (file : string) (fuel : nat) :
  (length garbage < fuel)%nat →
  ∃ st, while_true cols_i fuel {| GWAS_FILE_o := file;
                                  arrays := arrays_of (done ++ garbage);
                                  snp_i := length done |}
        = Some (IndexError, st)
      ∧ arrays st = arrays_of (done ++ (classify_line cols_i
                                          <$> readlines (length garbage) file)).
Proof.
  revert done file fuel.
  induction garbage as [|g garbage IH]; intros done file fuel Hfuel.
  - destruct fuel as [|fuel]; [simpl in Hfuel; lia|]. simpl.
    rewrite app_nil_r.
    pose proof (loop_body_full cols_i done file) as Hfull.
    destruct (loop_body cols_i _) as [[e|] st] eqn:Hbody; [|done].
    simpl in Hfull. injection Hfull as ->. exists st. split; [done|].
    unfold loop_body in Hbody. cbn [GWAS_FILE_o arrays snp_i] in Hbody.
    destruct (readline file) as [line rest].
    rewrite check_row_closed_form in Hbody.
    destruct (check_row_closed cols_i (fields line)) as [[pval report] issues].
    simpl in Hbody.
    rewrite <- (length_fmap (λ r : slot, r.1.1) done) in Hbody at 1.
    rewrite np_setitem_end in Hbody. by injection Hbody as <-.
  - destruct fuel as [|fuel]; [simpl in Hfuel; lia|]. simpl in Hfuel.
    cbn [while_true]. rewrite loop_body_store.
    specialize (IH (done ++ [classify_line cols_i (readline file).1])%list
                   (readline file).2 fuel ltac:(lia)).
    rewrite length_app in IH. simpl in IH.
    replace (length done + 1)%nat with (S (length done)) in IH by lia.
    destruct IH as (st & Hrun & Harr). exists st. split; [done|].
    rewrite Harr. simpl. destruct (readline file) as [line rest]. simpl.
    by rewrite <- app_assoc.
Qed.

(** the pass ends, and every slot holds the classification of one result of
    [readline] *)
Lemma classify_fills_every_slot (cols_i : gmap string Z) (garbage : list slot)
    (file : string) (fuel : nat) :
  (length garbage < fuel)%nat →
  classify cols_i fuel (arrays_of garbage) file
  = Some (Ok (arrays_of (classify_line cols_i <$> readlines (length garbage) file))).
Proof.
  intros Hfuel. unfold classify.
  destruct (while_true_fills cols_i garbage [] file fuel Hfuel) as (st & Hrun & Harr).
  simpl in Hrun. rewrite Hrun. by rewrite Harr.
Qed.

(** past the end of the file every line is empty, and an empty line has no
    p-value, whatever the columns are *)
Lemma readline_at_end : readline "" = ("", "").
Proof. done. Qed.

Lemma classify_line_at_end (cols_i : gmap string Z) :
  classify_line cols_i "" = (PyFloat.nan, MISSING_P_VALUE, no_issues).
Proof.
  assert (Hnone : usable_pval cols_i (fields "") = None).
  { unfold usable_pval, column, getitem_dict. change (fields "") with [""].
    destruct (cols_i !! "pval") as [i|]; [|reflexivity]. cbn [mbind outcome_bind].
    unfold getitem_list. change (Z.of_nat (length [""])) with 1.
    destruct (i <? 0) eqn:Hneg.
    - destruct ((0 <=? i + 1) && (i + 1 <? 1)) eqn:Hin; [|reflexivity].
      apply andb_true_iff in Hin. replace (i + 1) with 0 by lia. reflexivity.
    - destruct ((0 <=? i) && (i <? 1)) eqn:Hin; [|reflexivity].
      apply andb_true_iff in Hin. replace i with 0 by lia. reflexivity. }
  unfold classify_line, check_row_closed. by rewrite Hnone.
Qed.

Lemma readlines_at_end (n : nat) : readlines n "" = replicate n "".
Proof. induction n as [|n IH]; [done|]. simpl. by rewrite IH. Qed.

(** when the file has no row left, every slot that was counted is filled
    with a row without p-value *)
Lemma exhausted_file_is_classified_missing (cols_i : gmap string Z)
    (garbage : list slot) (extra : nat) :
  classify cols_i (S (length garbage) + extra) (arrays_of garbage) ""
  = Some (Ok (arrays_of (replicate (length garbage)
                           (PyFloat.nan, MISSING_P_VALUE, no_issues)))).
Proof.
  rewrite classify_fills_every_slot by lia. rewrite readlines_at_end.
  rewrite fmap_replicate. by rewrite classify_line_at_end.
Qed.

(** on a file of one row when three rows were counted: the pass does not
    end after the row that was read; the two slots of the tail are filled
    with the classification of an empty line, [MISSING_P_VALUE], and the
    counting counts both in the missing count of bin 0 *)
Lemma short_file_tail_is_classified_missing (g0 g1 g2 : slot) (extra : nat) :
  classify standard_cols_i (4 + extra) (arrays_of [g0; g1; g2]) one_row_file
  = Some (Ok (arrays_of [(p_0_04, GOOD_ENTRY, no_issues);
                         (PyFloat.nan, MISSING_P_VALUE, no_issues);
                         (PyFloat.nan, MISSING_P_VALUE, no_issues)]))
  ∧ ∃ b, count_entries default_ticks
           (arrays_of [(p_0_04, GOOD_ENTRY, no_issues);
                       (PyFloat.nan, MISSING_P_VALUE, no_issues);
                       (PyFloat.nan, MISSING_P_VALUE, no_issues)]) = Ok b
       ∧ missing_pval_bins b !! 0%nat = Some 2.
Proof.
  split.
  - rewrite classify_fills_every_slot by (simpl; lia).
    vm_compute. reflexivity.
  - eexists. split; [vm_compute; reflexivity|]. reflexivity.
Qed.


(** ** The widths of the bars *)

Section Widths.
Variable log10 : float → float.
Variable ticks : list float.

Let tick (i : nat) : float := default PyFloat.nan (ticks !! i).

Lemma log10_width_step (i : nat) (ws : list float) :
  (S i < length ticks)%nat →
  log10_width log10 ticks (S i) ws
  = Ok (ws ++ [log10_bar_width log10 (tick i) (tick (S i))])%list.
Proof.
  intros Hi. unfold log10_width, log10_bar_width, tick, unit_width.
  destruct (lookup_lt_is_Some_2 ticks i ltac:(lia)) as [t0 Ht0].
  destruct (lookup_lt_is_Some_2 ticks (S i) Hi) as [t1 Ht1].
  replace (Z.of_nat (S i) - 1) with (Z.of_nat i) by lia.
  rewrite (getitem_list_nat _ _ _ Ht0). simpl.
  rewrite Ht0, Ht1. simpl.
  destruct (PyFloat.eqb t0 PyFloat.zero); [done|].
  by rewrite (getitem_list_nat _ _ _ Ht1).
Qed.

Lemma log10_widths_from (n a : nat) (ws : list float) :
  (S a + n ≤ length ticks)%nat →
  for_range (seq (S a) n) (log10_width log10 ticks) ws
  = Ok (ws ++ ((λ i, log10_bar_width log10 (tick i) (tick (S i))) <$> seq a n))%list.
Proof.
  revert a ws. induction n as [|n IH]; intros a ws Hn; simpl.
  - by rewrite app_nil_r.
  - rewrite log10_width_step by lia. simpl.
    rewrite IH by lia. by rewrite <- app_assoc.
Qed.

Lemma bars_widths_log10 :
  bars_widths log10 "log10" ticks
  = Ok (PyFloat.one
        :: ((λ i, log10_bar_width log10 (tick i) (tick (S i)))
            <$> seq 0 (length ticks - 1))).
Proof.
  unfold bars_widths, range_from_1. simpl String.eqb. cbv iota.
  destruct (decide (length ticks = 0%nat)) as [Hlen|Hlen].
  - by rewrite Hlen.
  - rewrite log10_widths_from by lia. done.
Qed.

End Widths.

(** C7: under the rule [log10], bar 0 has the width 1 and every bar
    [i >= 1] the width [(log10(ticks[i]) - log10(ticks[i-1]))] over
    [(log10(1) - log10(0.01))], but the width 2 when [ticks[i-1]] is 0; the
    bar between the ticks [1e-5] and [1e-3] has the width 1 exactly, as soon
    as [log10] returns the exact logarithm of 1, 1e-2, 1e-3 and 1e-5. *)
Theorem log10_bars_widths (log10 : float → float) (ticks : list float) :
  ∃ ws, bars_widths log10 "log10" ticks = Ok ws
    ∧ ws !! 0%nat = Some PyFloat.one
    ∧ (∀ i t0 t1, ticks !! i = Some t0 → ticks !! S i = Some t1 →
         ws !! S i
         = Some (if PyFloat.eqb t0 PyFloat.zero then PyFloat.two
                 else PyFloat.div (PyFloat.sub (log10 t1) (log10 t0))
                        (PyFloat.sub (log10 PyFloat.one) (log10 one_hundredth))))
    ∧ (log10_exact_on_example log10 →
       ∀ i, ticks !! i = Some tick_1e_5 → ticks !! S i = Some tick_1e_3 →
         ws !! S i = Some PyFloat.one).
Proof.
  eexists. split; [apply bars_widths_log10|].
  assert (Hbar : ∀ i t0 t1, ticks !! i = Some t0 → ticks !! S i = Some t1 →
            (PyFloat.one
             :: ((λ i, log10_bar_width log10 (default PyFloat.nan (ticks !! i))
                         (default PyFloat.nan (ticks !! S i)))
                 <$> seq 0 (length ticks - 1))) !! S i
            = Some (log10_bar_width log10 t0 t1)).
  { intros i t0 t1 Ht0 Ht1. pose proof (lookup_lt_Some _ _ _ Ht1) as Hlt.
    simpl. rewrite list_lookup_fmap, lookup_seq_lt by lia. simpl.
    by rewrite Ht0, Ht1. }
  split_and!.
  - done.
  - intros i t0 t1 Ht0 Ht1. by rewrite (Hbar i t0 t1).
  - intros (H1 & H2 & H3 & H5) i Ht0 Ht1. rewrite (Hbar i _ _ Ht0 Ht1).
    unfold log10_bar_width. rewrite H1, H2, H3, H5. vm_compute. reflexivity.
Qed.

Lemma log10_bars_widths_witness :
  ∃ ws, bars_widths log10_on_example "log10" [tick_1e_5; tick_1e_3] = Ok ws
        ∧ ws !! 1%nat = Some PyFloat.one.
Proof.
  destruct (log10_bars_widths log10_on_example [tick_1e_5; tick_1e_3])
    as (ws & Hws & _ & _ & Hexample).
  exists ws. split; [exact Hws|].
  apply (Hexample (conj eq_refl (conj eq_refl (conj eq_refl eq_refl))) 0%nat);
    reflexivity.
Defined.

(** * Further properties *)

(** ** The checks of [check_row], field by field *)

Lemma check_row_reaching (cols_i : gmap string Z) (line_cols : list string)
    (pval : float) (fs : string * string * string * string * string * string * string * string) :
  usable_pval cols_i line_cols = Some pval →
  other_fields cols_i line_cols = Ok fs →
  check_row cols_i line_cols
  = Ok (Some pval,
        if existsb id (field_flags fs) then INVALID_ENTRY else GOOD_ENTRY,
        field_flags fs).
Proof.
  intros Hp Hf. rewrite check_row_closed_form. unfold check_row_closed.
  by rewrite Hp, Hf.
Qed.

Lemma flag_false_iff (b : bool) (P : Prop) :
  (b = false ↔ P) → (Some b = Some false ↔ P) ∧ (Some b = Some true ↔ ¬ P).
Proof. destruct b; intuition congruence. Qed.

(** *** rsID *)

Lemma str_app_cons (c : ascii) (s t : string) : String c s ++ t = String c (s ++ t).
Proof. reflexivity. Qed.

Lemma str_app_nil_r (s : string) : s ++ "" = s.
Proof. induction s as [|c s IH]; [done|]. by rewrite str_app_cons, IH. Qed.

Lemma span_digits_app (ds t : string) :
  all_chars is_digit ds = true →
  match t with String c _ => is_digit c = false | EmptyString => True end →
  ∃ vals, span_digits (ds ++ t) = (vals, t) ∧ length vals = String.length ds.
Proof.
  intros Hds Ht. induction ds as [|c ds IH]; simpl in *.
  - exists []. split; [|done]. destruct t as [|c t]; [done|]. simpl. by rewrite Ht.
  - apply andb_true_iff in Hds as [Hc Hds]. destruct (IH Hds) as (vals & Hspan & Hlen).
    rewrite Hc, Hspan. eexists. split; [done|]. simpl. by rewrite Hlen.
Qed.

Lemma span_digits_split (s : string) :
  ∃ ds, s = ds ++ (span_digits s).2
        ∧ all_chars is_digit ds = true
        ∧ length (span_digits s).1 = String.length ds.
Proof.
  induction s as [|c s (ds & Hs & Hds & Hlen)]; simpl.
  - by exists "".
  - destruct (is_digit c) eqn:Hc.
    + destruct (span_digits s) as [vals t]. simpl in *.
      exists (String c ds). simpl. rewrite Hc, Hds.
      split; [rewrite Hs at 1; reflexivity|]. split; [done|]. by rewrite Hlen.
    + by exists "".
Qed.

Lemma match_rsid_true (s : string) :
  match_rsid s = true
  ↔ ∃ ds, ds ≠ "" ∧ all_chars is_digit ds = true
          ∧ (s = "rs" ++ ds ∨ s = "rs" ++ ds ++ String "010" "").
Proof.
  split.
  - unfold match_rsid.
    destruct s as [|c1 [|c2 r]]; try done.
    { by destruct c1 as [[] [] [] [] [] [] [] []]. }
    destruct (Ascii.eqb_spec c1 "r") as [->|Hne1];
      [|by destruct c1 as [[] [] [] [] [] [] [] []]].
    destruct (Ascii.eqb_spec c2 "s") as [->|Hne2];
      [|by destruct c2 as [[] [] [] [] [] [] [] []]].
    destruct (span_digits_split r) as (ds & Hr & Hds & Hlen).
    destruct (span_digits r) as [vals t]. simpl in *.
    destruct vals as [|v vals]; [done|]. intros Ht.
    exists ds. split; [by destruct ds|]. split; [done|].
    apply orb_true_iff in Ht as [Ht|Ht]; apply String.eqb_eq in Ht; subst t.
    + left. by rewrite str_app_nil_r in Hr; subst r.
    + right. by rewrite Hr at 1.
  - intros (ds & Hne & Hds & [->| ->]).
    + change (match_rsid (String "r" (String "s" ds)) = true). unfold match_rsid.
      destruct (span_digits_app ds "" Hds I) as (vals & Hspan & Hlen).
      rewrite str_app_nil_r in Hspan.
      rewrite Hspan. destruct vals; [by destruct ds|done].
    + change (match_rsid (String "r" (String "s" (ds ++ String "010" ""))) = true).
      unfold match_rsid.
      destruct (span_digits_app ds (String "010" "") Hds eq_refl) as (vals & Hspan & Hlen).
      rewrite Hspan. destruct vals; [by destruct ds|done].
Qed.

(** *** The other fields *)

Lemma is_nucleotide_char (c : ascii) :
  str_in (String (chr_lower c) "") NUCLEOTIDES = has_char c "atcgATCG".
Proof. destruct c as [[] [] [] [] [] [] [] []]; reflexivity. Qed.

Lemma allele_flag_false (a : string) :
  allele_flag a = false
  ↔ a = NO_NUCLEOTIDE
    ∨ (a ≠ "" ∧ all_chars (λ c, has_char c "atcgATCG") a = true).
Proof.
  assert (Hall : ∀ s, existsb (λ char, negb (str_in char NUCLEOTIDES)) (chars (lower s))
                      = negb (all_chars (λ c, has_char c "atcgATCG") s)).
  { induction s as [|c s IH]; [done|].
    cbn [lower chars existsb all_chars]. rewrite IH, is_nucleotide_char.
    by destruct (has_char c "atcgATCG"). }
  unfold allele_flag.
  destruct (String.eqb_spec a "") as [->|Hne]; [by intuition|].
  destruct (String.eqb_spec a NO_NUCLEOTIDE) as [->|Hdot]; [by intuition|].
  unfold ALLOW_MULTI_NUCLEOTIDE_POLYMORPHISMS. rewrite Hall.
  destruct (all_chars _ a); simpl; intuition congruence.
Qed.

Lemma bp_flag_false (bp : string) :
  bp_flag bp = false
  ↔ ∃ x n, float_of_str bp = Ok x ∧ PyFloat.to_int x = Ok n ∧ 0 ≤ n.
Proof.
  unfold bp_flag. destruct (float_of_str bp) as [x|e]; simpl.
  - destruct (PyFloat.to_int x) as [n|e] eqn:Hint; simpl.
    + split.
      * intros Hn%Z.ltb_ge. by exists x, n.
      * intros (x' & n' & [= <-] & Hint' & Hn).
        rewrite Hint in Hint'. injection Hint' as <-. by apply Z.ltb_ge.
    + split; [done|]. intros (x' & n' & [= <-] & Hint' & _). congruence.
  - split; [done|]. by intros (x' & n' & ? & _).
Qed.

Lemma eaf_flag_false (af : string) :
  eaf_flag af = false
  ↔ ∃ x, float_of_str af = Ok x
         ∧ PyFloat.leb PyFloat.zero x = true ∧ PyFloat.leb x PyFloat.one = true.
Proof.
  unfold eaf_flag, in_unit_interval. destruct (float_of_str af) as [x|e].
  - split.
    + intros [H0 H1]%negb_false_iff%andb_true_iff. by exists x.
    + intros (x' & [= <-] & H0 & H1). by rewrite H0, H1.
  - split; [done|]. by intros (x' & ? & _).
Qed.

(** of the null-like strings only [nan] is a float *)
Lemma chr_lower_fixed (c d : ascii) :
  d ∈ [" "; "."; "-"]%char → chr_lower c = d → c = d.
Proof.
  intros Hd. repeat (apply elem_of_cons in Hd as [->|Hd]);
    [| | |by apply elem_of_nil in Hd];
    destruct c as [[] [] [] [] [] [] [] []]; vm_compute; intros H;
      first [discriminate H | reflexivity].
Qed.

Lemma chr_lower_letter_n (c : ascii) :
  chr_lower c = "n"%char → c = "n"%char ∨ c = "N"%char.
Proof.
  destruct c as [[] [] [] [] [] [] [] []]; vm_compute; intros H;
    first [discriminate H | by left | by right].
Qed.

Lemma chr_lower_letter_a (c : ascii) :
  chr_lower c = "a"%char → c = "a"%char ∨ c = "A"%char.
Proof.
  destruct c as [[] [] [] [] [] [] [] []]; vm_compute; intros H;
    first [discriminate H | by left | by right].
Qed.

Lemma null_float_is_nan (s : string) (x : float) :
  is_null s = true → float_of_str s = Ok x → lower s = "nan".
Proof.
  unfold is_null. intros Hnull%str_in_elem_of Hx.
  repeat (apply elem_of_cons in Hnull as [Hnull|Hnull]);
    [| | | | |done|by apply elem_of_nil in Hnull]; exfalso.
  - destruct s; [|done]. by vm_compute in Hx.
  - destruct s as [|c [|? ?]]; try done. injection Hnull as Hc.
    apply (chr_lower_fixed c " "%char) in Hc as ->; [|set_solver]. by vm_compute in Hx.
  - destruct s as [|c [|? ?]]; try done. injection Hnull as Hc.
    apply (chr_lower_fixed c "."%char) in Hc as ->; [|set_solver]. by vm_compute in Hx.
  - destruct s as [|c [|? ?]]; try done. injection Hnull as Hc.
    apply (chr_lower_fixed c "-"%char) in Hc as ->; [|set_solver]. by vm_compute in Hx.
  - destruct s as [|c1 [|c2 [|? ?]]]; try done. injection Hnull as Hc1 Hc2.
    apply chr_lower_letter_n in Hc1 as [-> | ->];
      apply chr_lower_letter_a in Hc2 as [-> | ->]; by vm_compute in Hx.
Qed.

Lemma number_flag_false (s : string) :
  number_flag s = false ↔ (∃ x, float_of_str s = Ok x) ∧ lower s ≠ "nan".
Proof.
  unfold number_flag. destruct (float_of_str s) as [x|e] eqn:Hx.
  - split.
    + intros Hnull. split; [by exists x|]. intros Hnan.
      unfold is_null in Hnull. rewrite Hnan in Hnull. done.
    + intros [_ Hnan]. destruct (is_null s) eqn:Hnull; [|done].
      by apply (null_float_is_nan s x) in Hnull.
  - split; [done|]. by intros [[x ?] _].
Qed.

(** *** What [check_row] answers for a row that has its fields *)

Section FieldChecks.
Variable cols_i : gmap string Z.
Variable line_cols : list string.
Variable pval : float.
Variables rsid chrom bp ea oa af se es : string.
Hypothesis Hpval : usable_pval cols_i line_cols = Some pval.
Hypothesis Hfields :
  other_fields cols_i line_cols = Ok (rsid, chrom, bp, ea, oa, af, se, es).

Lemma flag_rule_intro (idx : nat) (b : bool) (P : Prop) :
  field_flags (rsid, chrom, bp, ea, oa, af, se, es) !! idx = Some b →
  (b = false ↔ P) → flag_rule idx P cols_i line_cols pval.
Proof.
  intros Hidx HP. eexists _, _. split; [by apply check_row_reaching|].
  rewrite Hidx. by apply flag_false_iff.
Qed.

(** An rsID of ASCII characters is left unflagged exactly when it is [rs]
    followed by one digit or more, and then nothing or one newline. On
    ASCII the class [\d] of the pattern is the ten digits [0] to [9]; a
    field with other characters is not spoken of. *)
Theorem rsid_flagged_unless_rs_digits :
  all_chars is_ascii rsid = true →
  flag_rule INVALID_RSID
    (∃ ds, ds ≠ "" ∧ all_chars is_digit ds = true
           ∧ (rsid = "rs" ++ ds ∨ rsid = "rs" ++ ds ++ String "010" ""))
    cols_i line_cols pval.
Proof.
  intros _.
  apply (flag_rule_intro INVALID_RSID (rsid_flag rsid)); [done|].
  unfold rsid_flag. rewrite <- match_rsid_true.
  by destruct (match_rsid rsid).
Qed.

(** The base-pair position is left unflagged exactly when it is a float
    that is finite and whose integer part, cut towards zero, is not
    negative. *)
Theorem bp_flagged_unless_truncates_to_natural :
  flag_rule INVALID_BP
    (∃ x n, float_of_str bp = Ok x ∧ PyFloat.to_int x = Ok n ∧ 0 ≤ n)
    cols_i line_cols pval.
Proof.
  apply (flag_rule_intro INVALID_BP (bp_flag bp)); [done|]. apply bp_flag_false.
Qed.

(** The effect allele and the other allele are each left unflagged exactly
    when they are the placeholder [.] or a non-empty word over the letters
    a, t, c, g in either case. *)
Theorem alleles_flagged_unless_nucleotides :
  flag_rule INVALID_EA
    (ea = NO_NUCLEOTIDE ∨ (ea ≠ "" ∧ all_chars (λ c, has_char c "atcgATCG") ea = true))
    cols_i line_cols pval
  ∧ flag_rule INVALID_OA
      (oa = NO_NUCLEOTIDE ∨ (oa ≠ "" ∧ all_chars (λ c, has_char c "atcgATCG") oa = true))
      cols_i line_cols pval.
Proof.
  split.
  - apply (flag_rule_intro INVALID_EA (allele_flag ea)); [done|]. apply allele_flag_false.
  - apply (flag_rule_intro INVALID_OA (allele_flag oa)); [done|]. apply allele_flag_false.
Qed.

(** The allele frequency is left unflagged exactly when it is a float
    between 0 and 1. *)
Theorem eaf_flagged_unless_in_unit_interval :
  flag_rule INVALID_EAF
    (∃ x, float_of_str af = Ok x
          ∧ PyFloat.leb PyFloat.zero x = true ∧ PyFloat.leb x PyFloat.one = true)
    cols_i line_cols pval.
Proof.
  apply (flag_rule_intro INVALID_EAF (eaf_flag af)); [done|]. apply eaf_flag_false.
Qed.

(** The standard error and the effect size are each left unflagged exactly
    when they are a float and not the word [nan] in any case: the test
    [is_null] after [float] only ever catches [nan]. *)
Theorem se_and_beta_flagged_unless_float_not_nan :
  flag_rule INVALID_SE
    ((∃ x, float_of_str se = Ok x) ∧ lower se ≠ "nan") cols_i line_cols pval
  ∧ flag_rule INVALID_ES
      ((∃ x, float_of_str es = Ok x) ∧ lower es ≠ "nan") cols_i line_cols pval.
Proof.
  split.
  - apply (flag_rule_intro INVALID_SE (number_flag se)); [done|]. apply number_flag_false.
  - apply (flag_rule_intro INVALID_ES (number_flag es)); [done|]. apply number_flag_false.
Qed.

End FieldChecks.

Lemma rsid_flagged_unless_rs_digits_witness :
  flag_rule INVALID_RSID
    (∃ ds, ds ≠ "" ∧ all_chars is_digit ds = true
           ∧ ("rs123" = "rs" ++ ds ∨ "rs123" = "rs" ++ ds ++ String "010" ""))
    standard_cols_i example_row_in_column_order p_0_04.
Proof.
  apply (rsid_flagged_unless_rs_digits standard_cols_i example_row_in_column_order
           p_0_04 "rs123" "chr7" "10500" "G" "A" "0.3" "0.02" "0.01");
    vm_compute; reflexivity.
Defined.

Lemma bp_flagged_unless_truncates_to_natural_witness :
  flag_rule INVALID_BP
    (∃ x n, float_of_str "10500" = Ok x ∧ PyFloat.to_int x = Ok n ∧ 0 ≤ n)
    standard_cols_i example_row_in_column_order p_0_04.
Proof.
  apply (bp_flagged_unless_truncates_to_natural standard_cols_i
           example_row_in_column_order p_0_04 "rs123" "chr7" "10500" "G" "A" "0.3"
           "0.02" "0.01");
    vm_compute; reflexivity.
Defined.

Lemma alleles_flagged_unless_nucleotides_witness :
  flag_rule INVALID_EA
    ("G" = NO_NUCLEOTIDE ∨ ("G" ≠ "" ∧ all_chars (λ c, has_char c "atcgATCG") "G" = true))
    standard_cols_i example_row_in_column_order p_0_04
  ∧ flag_rule INVALID_OA
      ("A" = NO_NUCLEOTIDE ∨ ("A" ≠ "" ∧ all_chars (λ c, has_char c "atcgATCG") "A" = true))
      standard_cols_i example_row_in_column_order p_0_04.
Proof.
  apply (alleles_flagged_unless_nucleotides standard_cols_i
           example_row_in_column_order p_0_04 "rs123" "chr7" "10500" "G" "A" "0.3"
           "0.02" "0.01");
    vm_compute; reflexivity.
Defined.

Lemma eaf_flagged_unless_in_unit_interval_witness :
  flag_rule INVALID_EAF
    (∃ x, float_of_str "0.3" = Ok x
          ∧ PyFloat.leb PyFloat.zero x = true ∧ PyFloat.leb x PyFloat.one = true)
    standard_cols_i example_row_in_column_order p_0_04.
Proof.
  apply (eaf_flagged_unless_in_unit_interval standard_cols_i
           example_row_in_column_order p_0_04 "rs123" "chr7" "10500" "G" "A" "0.3"
           "0.02" "0.01");
    vm_compute; reflexivity.
Defined.

Lemma se_and_beta_flagged_unless_float_not_nan_witness :
  flag_rule INVALID_SE
    ((∃ x, float_of_str "0.02" = Ok x) ∧ lower "0.02" ≠ "nan")
    standard_cols_i example_row_in_column_order p_0_04
  ∧ flag_rule INVALID_ES
      ((∃ x, float_of_str "0.01" = Ok x) ∧ lower "0.01" ≠ "nan")
      standard_cols_i example_row_in_column_order p_0_04.
Proof.
  apply (se_and_beta_flagged_unless_float_not_nan standard_cols_i
           example_row_in_column_order p_0_04 "rs123" "chr7" "10500" "G" "A" "0.3"
           "0.02" "0.01");
    vm_compute; reflexivity.
Defined.

(** *** The row as a whole *)

Lemma other_fields_Raise (cols_i : gmap string Z) (line_cols : list string) :
  (∃ e, other_fields cols_i line_cols = Raise e)
  ↔ ∃ name e, name ∈ other_columns ∧ column cols_i line_cols name = Raise e.
Proof.
  unfold other_fields, other_columns. split.
  - intros [e He].
    repeat match goal with
           | H : context [column cols_i line_cols ?n ≫= _] |- _ =>
               destruct (column cols_i line_cols n) as [?|e'] eqn:?;
               [simpl in H|exists n, e'; split; [set_solver|done]]
           end; done.
  - intros (name & e & Hname & He).
    repeat (apply elem_of_cons in Hname as [->|Hname]);
      [..|by apply elem_of_nil in Hname];
      repeat match goal with
             | |- context [column cols_i line_cols ?n ≫= _] =>
                 destruct (column cols_i line_cols n) as [?|?] eqn:?; simpl;
                 [|by eauto]
             end; congruence.
Qed.

(** A row with a usable p-value in which one of the eight other columns is
    absent or out of range is invalid with the flag of the row alone, and a
    row is answered so only then. *)
Theorem missing_column_flags_the_row (cols_i : gmap string Z) (line_cols : list string)
    (pval : float) :
  usable_pval cols_i line_cols = Some pval →
  (∃ name e, name ∈ other_columns ∧ column cols_i line_cols name = Raise e)
  ↔ check_row cols_i line_cols
    = Ok (Some pval, INVALID_ENTRY, <[INVALID_ROW := true]> no_issues).
Proof.
  intros Hp. rewrite <- other_fields_Raise.
  rewrite check_row_closed_form. unfold check_row_closed. rewrite Hp.
  destruct (other_fields cols_i line_cols)
    as [[[[[[[[rsid chrom] bp] ea] oa] af] se] es]|e].
  - split; [by intros [e ?]|]. intros H. by inversion H.
  - split; [done|]. by exists e.
Qed.

Lemma missing_column_flags_the_row_witness :
  (∃ name e, name ∈ other_columns
             ∧ column (<["pval" := 0]> ∅) ["0.5"] name = Raise e)
  ↔ check_row (<["pval" := 0]> ∅) ["0.5"]
    = Ok (Some (PyFloat.of_decimal false 5 (-1)), INVALID_ENTRY,
          <[INVALID_ROW := true]> no_issues).
Proof.
  apply missing_column_flags_the_row. vm_compute. reflexivity.
Defined.

(** The p-value that [check_row] returns is the float of the column [pval]
    and lies between 0 and 1; there is none exactly when the verdict is
    [MISSING_P_VALUE]. *)
Theorem returned_pval_in_unit_interval (cols_i : gmap string Z)
    (line_cols : list string) (pval : option float) (report : verdict)
    (issues : list bool) :
  check_row cols_i line_cols = Ok (pval, report, issues) →
  (pval = None ↔ report = MISSING_P_VALUE)
  ∧ ∀ x, pval = Some x →
      ∃ s, column cols_i line_cols "pval" = Ok s ∧ float_of_str s = Ok x
           ∧ PyFloat.leb PyFloat.zero x = true ∧ PyFloat.leb x PyFloat.one = true.
Proof.
  rewrite check_row_closed_form. unfold check_row_closed.
  destruct (usable_pval cols_i line_cols) as [p|] eqn:Hp.
  - assert (Hin : ∃ s, column cols_i line_cols "pval" = Ok s ∧ float_of_str s = Ok p
                       ∧ PyFloat.leb PyFloat.zero p = true
                       ∧ PyFloat.leb p PyFloat.one = true).
    { unfold usable_pval in Hp.
      destruct (column cols_i line_cols "pval") as [s|] eqn:Hs; [|done].
      destruct (is_null s); [done|].
      destruct (float_of_str s) as [x|] eqn:Hfloat; [|done].
      destruct (in_unit_interval x) eqn:Hx; [|done]. injection Hp as ->.
      unfold in_unit_interval in Hx. apply andb_true_iff in Hx as [H0 H1].
      by exists s. }
    destruct (other_fields cols_i line_cols) as [fs|e]; intros [= <- <- <-].
    + split; [by destruct (existsb id (field_flags fs))|]. by intros x [= <-].
    + split; [done|]. by intros x [= <-].
  - intros [= <- <- <-]. split; done.
Qed.

Lemma returned_pval_in_unit_interval_witness :
  (Some p_0_04 = None ↔ GOOD_ENTRY = MISSING_P_VALUE)
  ∧ ∀ x, Some p_0_04 = Some x →
      ∃ s, column standard_cols_i example_row_in_column_order "pval" = Ok s
           ∧ float_of_str s = Ok x
           ∧ PyFloat.leb PyFloat.zero x = true ∧ PyFloat.leb x PyFloat.one = true.
Proof.
  apply (returned_pval_in_unit_interval standard_cols_i example_row_in_column_order
           (Some p_0_04) GOOD_ENTRY no_issues).
  vm_compute. reflexivity.
Defined.

(** [check_row] looks at nothing but the nine columns it names: two rows,
    under two column maps, that hold the same in these columns get the same
    answer, whatever they hold elsewhere and however long they are. *)
Theorem check_row_reads_only_checked_columns (cols_i cols_i' : gmap string Z)
    (line_cols line_cols' : list string) :
  (∀ name, name ∈ checked_columns →
           column cols_i line_cols name = column cols_i' line_cols' name) →
  check_row cols_i line_cols = check_row cols_i' line_cols'.
Proof.
  intros Hsame. rewrite !check_row_closed_form. f_equal.
  unfold check_row_closed, usable_pval, other_fields.
  rewrite !(Hsame "pval"), !(Hsame "rsID"), !(Hsame "Chr"), !(Hsame "BP"),
    !(Hsame "EA"), !(Hsame "OA"), !(Hsame "EAF"), !(Hsame "SE"), !(Hsame "beta")
    by (unfold checked_columns; set_solver).
  done.
Qed.

Lemma check_row_reads_only_checked_columns_witness :
  check_row standard_cols_i example_row_in_column_order
  = check_row (<["N" := 0]> standard_cols_i)
      (example_row_in_column_order ++ ["1000"; "0.9"; "extra"]).
Proof.
  apply check_row_reads_only_checked_columns.
  intros name Hname. unfold checked_columns in Hname.
  repeat (apply elem_of_cons in Hname as [->|Hname]);
    [..|by apply elem_of_nil in Hname]; vm_compute; reflexivity.
Defined.

(** ** The fields of a line *)

Lemma str_split_nonempty (c : ascii) (s : string) : str_split c s ≠ [].
Proof.
  destruct s as [|d r]; [done|]. simpl. destruct (Ascii.eqb c d); [done|].
  by destruct (str_split c r).
Qed.

Lemma concat_cons_sep (c : ascii) (f : string) (fs : list string) :
  fs ≠ [] →
  String.concat (String c "") (f :: fs) = f ++ String c (String.concat (String c "") fs).
Proof. destruct fs; [done|]. reflexivity. Qed.

Lemma concat_cons_char (sep : string) (d : ascii) (f : string) (fs : list string) :
  String.concat sep (String d f :: fs) = String d (String.concat sep (f :: fs)).
Proof. by destruct fs. Qed.

Lemma str_split_join (c : ascii) (s : string) :
  String.concat (String c "") (str_split c s) = s.
Proof.
  induction s as [|d r IH]; [done|]. simpl.
  destruct (Ascii.eqb_spec c d) as [->|Hne].
  - rewrite concat_cons_sep by apply str_split_nonempty.
    rewrite IH. reflexivity.
  - pose proof (str_split_nonempty c r) as Hr.
    destruct (str_split c r) as [|f fs]; [done|].
    by rewrite concat_cons_char, IH.
Qed.

Lemma str_split_length (c : ascii) (s : string) :
  length (str_split c s) = S (count_char c s).
Proof.
  induction s as [|d r IH]; [done|]. simpl.
  destruct (Ascii.eqb c d); simpl; [by rewrite IH|].
  pose proof (str_split_nonempty c r) as Hr.
  by destruct (str_split c r).
Qed.

(** a field holds no separator, and only characters of the line *)
Lemma str_split_chars (c d : ascii) (s : string) :
  Forall (λ f, has_char c f = false ∧ (has_char d s = false → has_char d f = false))
         (str_split c s).
Proof.
  induction s as [|e r IH]; simpl.
  - by repeat constructor.
  - destruct (Ascii.eqb_spec c e) as [->|Hne].
    + constructor; [done|].
      eapply Forall_impl; [exact IH|]. intros f [Hc Hd]. split; [done|].
      intros [_ Hr]%orb_false_iff. by apply Hd.
    + pose proof (str_split_nonempty c r) as Hr.
      destruct (str_split c r) as [|f fs]; [done|].
      apply Forall_cons in IH as [[Hc Hd] IH]. constructor.
      * split.
        -- simpl. rewrite Hc. by destruct (Ascii.eqb_spec c e).
        -- simpl. intros [He Hr']%orb_false_iff. rewrite He. by apply Hd.
      * eapply Forall_impl; [exact IH|]. intros f' [Hc' Hd']. split; [done|].
        intros [_ Hr']%orb_false_iff. by apply Hd'.
Qed.

Lemma remove_char_has_char (c : ascii) (s : string) :
  has_char c (remove_char c s) = false.
Proof.
  induction s as [|d r IH]; [done|]. simpl.
  destruct (Ascii.eqb_spec c d) as [->|Hne]; [done|].
  simpl. rewrite IH. by destruct (Ascii.eqb_spec c d).
Qed.

Lemma remove_char_count (c d : ascii) (s : string) :
  c ≠ d → count_char d (remove_char c s) = count_char d s.
Proof.
  intros Hne. induction s as [|e r IH]; [done|]. simpl.
  destruct (Ascii.eqb_spec c e) as [->|Hce].
  - rewrite IH. by destruct (Ascii.eqb_spec d e) as [->|].
  - simpl. by rewrite IH.
Qed.

(** The fields of a line, joined by the separator, are the line without
    its newlines; there is one field more than there are separators in the
    line, so one at least, and no field holds a separator or a newline. *)
Theorem fields_join_to_the_line (line : string) :
  String.concat (String separator "") (fields line) = remove_char "010" line
  ∧ length (fields line) = S (count_char separator line)
  ∧ Forall (λ f, has_char separator f = false ∧ has_char "010" f = false)
           (fields line).
Proof.
  unfold fields. split_and!.
  - apply str_split_join.
  - rewrite str_split_length. by rewrite remove_char_count.
  - eapply Forall_impl; [apply (str_split_chars separator "010")|].
    intros f [Hsep Hnl]. split; [done|]. apply Hnl, remove_char_has_char.
Qed.

(** ** The pass, line by line *)







(** ** From the file to the counts *)




(** ** The order of the rows does not matter *)

Lemma wrap64_add_comm (x a b : Z) :
  wrap64 (wrap64 (x + a) + b) = wrap64 (wrap64 (x + b) + a).
Proof.
  unfold wrap64. f_equal.
  replace ((x + a + 2 ^ 63) mod 2 ^ 64 - 2 ^ 63 + b + 2 ^ 63)
    with ((x + a + 2 ^ 63) mod 2 ^ 64 + b) by lia.
  replace ((x + b + 2 ^ 63) mod 2 ^ 64 - 2 ^ 63 + a + 2 ^ 63)
    with ((x + b + 2 ^ 63) mod 2 ^ 64 + a) by lia.
  rewrite !Z.add_mod_idemp_l by lia. f_equal. lia.
Qed.

Lemma add_flags_row_comm (row : list Z) (f1 f2 : list bool) :
  zip_with (λ x (f : bool), wrap64 (x + Z.b2z f))
    (zip_with (λ x (f : bool), wrap64 (x + Z.b2z f)) row f1) f2
  = zip_with (λ x (f : bool), wrap64 (x + Z.b2z f))
      (zip_with (λ x (f : bool), wrap64 (x + Z.b2z f)) row f2) f1.
Proof.
  revert f1 f2. induction row as [|x row IH]; intros [|b1 f1] [|b2 f2]; simpl; try done.
  by rewrite wrap64_add_comm, IH.
Qed.

Lemma bump_comm (l : list Z) (i j : nat) : bump (bump l i) j = bump (bump l j) i.
Proof.
  unfold bump. destruct (decide (i = j)) as [->|Hne]; [done|].
  by apply list_alter_alter_ne.
Qed.

Lemma bump_flags_comm (m : list (list Z)) (i j : nat) (f1 f2 : list bool) :
  bump_flags (bump_flags m i f1) j f2 = bump_flags (bump_flags m j f2) i f1.
Proof.
  unfold bump_flags. destruct (decide (i = j)) as [->|Hne].
  - rewrite !list_alter_alter_eq. apply list_alter_ext; [|done].
    intros row _. simpl. apply add_flags_row_comm.
  - by apply list_alter_alter_ne.
Qed.

Lemma count_slot_comm (ticks : list float) (b : bins) (r1 r2 : slot) :
  count_slot ticks (count_slot ticks b r1) r2
  = count_slot ticks (count_slot ticks b r2) r1.
Proof.
  destruct r1 as [[p1 [] ] f1], r2 as [[p2 [] ] f2]; unfold count_slot;
    destruct (find_bin ticks p1) as [j1|], (find_bin ticks p2) as [j2|]; simpl;
    try done; f_equal; auto using bump_comm, bump_flags_comm.
Qed.

Lemma foldl_count_slot_perm (ticks : list float) (rows rows' : list slot) :
  rows ≡ₚ rows' →
  ∀ b, foldl (count_slot ticks) b rows = foldl (count_slot ticks) b rows'.
Proof.
  induction 1 as [|r rows rows' _ IH|r1 r2 rows|rows1 rows2 rows3 _ IH1 _ IH2];
    intros b; simpl.
  - done.
  - apply IH.
  - by rewrite count_slot_comm.
  - by rewrite IH1.
Qed.

(** The counts do not depend on the order of the rows: two sequences of
    rows that are permutations of each other are counted alike. *)
Theorem count_entries_order_insensitive (ticks : list float) (rows rows' : list slot) :
  ticks ≠ [] → flags_shape rows → rows ≡ₚ rows' →
  count_entries ticks (arrays_of rows) = count_entries ticks (arrays_of rows').
Proof.
  intros Hne Hshape Hperm.
  assert (Hshape' : flags_shape rows') by (unfold flags_shape; by rewrite <- Hperm).
  rewrite !count_entries_fold by done. f_equal. by apply foldl_count_slot_perm.
Qed.

Lemma count_entries_order_insensitive_witness :
  count_entries default_ticks
    (arrays_of [(p_0_04, GOOD_ENTRY, no_issues);
                (PyFloat.nan, MISSING_P_VALUE, no_issues)])
  = count_entries default_ticks
      (arrays_of [(PyFloat.nan, MISSING_P_VALUE, no_issues);
                  (p_0_04, GOOD_ENTRY, no_issues)]).
Proof.
  apply count_entries_order_insensitive.
  - discriminate.
  - repeat constructor.
  - apply perm_swap.
Defined.

(** ** The widths of the bars, whatever the rule *)

Lemma even_widths_from (idx : list nat) (ws : list float) :
  for_range idx (λ _ ws, Ok (ws ++ [PyFloat.one])%list) ws
  = Ok (ws ++ replicate (length idx) PyFloat.one)%list.
Proof.
  revert ws. induction idx as [|i idx IH]; intros ws; simpl.
  - by rewrite app_nil_r.
  - rewrite IH. by rewrite <- app_assoc.
Qed.

Lemma bars_widths_cases (log10 : float → float) (rule : string) (ticks : list float) :
  bars_widths log10 rule ticks
  = if String.eqb rule "even"
    then Ok (replicate (S (length ticks - 1)) PyFloat.one)
    else if String.eqb rule "log10"
         then Ok (PyFloat.one
                  :: ((λ i, log10_bar_width log10
                              (default PyFloat.nan (ticks !! i))
                              (default PyFloat.nan (ticks !! S i)))
                      <$> seq 0 (length ticks - 1)))
         else Raise ValueError.
Proof.
  destruct (String.eqb rule "even") eqn:Heven.
  - unfold bars_widths. rewrite Heven, even_widths_from.
    unfold range_from_1. by rewrite length_seq.
  - destruct (String.eqb rule "log10") eqn:Hlog.
    + apply String.eqb_eq in Hlog as ->. apply bars_widths_log10.
    + unfold bars_widths. by rewrite Heven, Hlog.
Qed.

Lemma bars_widths_shape (log10 : float → float) (rule : string) (ticks ws : list float) :
  bars_widths log10 rule ticks = Ok ws →
  length ws = (length ticks `max` 1)%nat ∧ ws !! 0%nat = Some PyFloat.one.
Proof.
  rewrite bars_widths_cases.
  replace (S (length ticks - 1)) with (length ticks `max` 1)%nat by lia.
  destruct (String.eqb rule "even"); [|destruct (String.eqb rule "log10")].
  - intros [= <-]. rewrite length_replicate. split; [done|].
    apply lookup_replicate_2. lia.
  - intros [= <-]. simpl. rewrite length_fmap, length_seq. split; [lia|done].
  - done.
Qed.

(** The widths are computed for the two rules ['even'] and ['log10'] and no
    other rule: any other rule raises [ValueError]. Under both rules there
    is one width per tick, and one width when there is no tick; the first
    width is 1, and under ['even'] every width is 1. *)
Theorem bars_widths_by_rule (log10 : float → float) (rule : string) (ticks : list float) :
  ((rule ≠ "even" ∧ rule ≠ "log10") ↔ bars_widths log10 rule ticks = Raise ValueError)
  ∧ (∀ ws, bars_widths log10 rule ticks = Ok ws →
       length ws = (length ticks `max` 1)%nat ∧ ws !! 0%nat = Some PyFloat.one)
  ∧ (rule = "even" →
     bars_widths log10 rule ticks
     = Ok (replicate (length ticks `max` 1) PyFloat.one)).
Proof.
  split_and!.
  - rewrite bars_widths_cases.
    destruct (String.eqb_spec rule "even") as [->|Heven].
    + split; [by intros [? _]|done].
    + destruct (String.eqb_spec rule "log10") as [->|Hlog].
      * split; [by intros [_ ?]|done].
      * done.
  - apply bars_widths_shape.
  - intros ->. rewrite bars_widths_cases.
    by replace (S (length ticks - 1)) with (length ticks `max` 1)%nat by lia.
Qed.

Lemma bars_widths_by_rule_witness :
  bars_widths log10_on_example "even" default_ticks
  = Ok (replicate (length default_ticks `max` 1) PyFloat.one)
  ∧ length (replicate (length default_ticks `max` 1) PyFloat.one)
    = (length default_ticks `max` 1)%nat.
Proof.
  destruct (bars_widths_by_rule log10_on_example "even" default_ticks)
    as (_ & Hshape & Heven).
  split; [exact (Heven eq_refl)|].
  exact (proj1 (Hshape _ (Heven eq_refl))).
Defined.

(** ** The locations of the ticks *)

Lemma ticks_loc_step_foldl (ws : list float) (c : float) (locs : list float) :
  ∃ more, (foldl ticks_loc_step (c, locs) ws).2 = (locs ++ more)%list
          ∧ length more = length ws
          ∧ more !! 0%nat = (float_add c) <$> (ws !! 0%nat).
Proof.
  revert c locs. induction ws as [|w ws IH]; intros c locs; simpl.
  - exists []. by rewrite app_nil_r.
  - destruct (IH (float_add c w) (locs ++ [float_add c w])%list)
      as (more & Hmore & Hlen & _).
    exists (float_add c w :: more). unfold ticks_loc_step at 2. simpl.
    rewrite Hmore, <- app_assoc. simpl. by rewrite Hlen.
Qed.

(** The locations of the ticks that are computed from the widths of either
    rule: there is one location per width and the first location is 0; with
    one tick or more the three lists have one length, as the script
    asserts, and with no tick they have not. *)
Theorem ticks_loc_of_bars_widths (log10 : float → float) (rule : string)
    (ticks ws : list float) :
  bars_widths log10 rule ticks = Ok ws →
  ∃ locs, ticks_loc ws = Ok locs
    ∧ length locs = length ws
    ∧ locs !! 0%nat = Some PyFloat.zero
    ∧ (lengths_agree ticks ws locs ↔ ticks ≠ []).
Proof.
  intros Hws.
  destruct (bars_widths_shape log10 rule ticks ws Hws) as [Hlen H0].
  unfold ticks_loc. change 0 with (Z.of_nat 0) at 1.
  rewrite (getitem_list_nat ws 0%nat _ H0). cbn [mbind outcome_bind].
  destruct (ticks_loc_step_foldl ws (float_opp PyFloat.one) [])
    as (more & Hmore & Hmlen & Hfirst).
  rewrite Hmore. simpl. exists more. split_and!; try done.
  - by rewrite Hfirst, H0.
  - unfold lengths_agree. rewrite Hmlen, Hlen.
    destruct ticks; simpl; split; try done; intros; lia.
Qed.

Lemma ticks_loc_of_bars_widths_witness :
  ∃ locs, ticks_loc (replicate (length default_ticks `max` 1) PyFloat.one) = Ok locs
    ∧ length locs = length default_ticks
    ∧ locs !! 0%nat = Some PyFloat.zero.
Proof.
  destruct (ticks_loc_of_bars_widths log10_on_example "even" default_ticks
              (replicate (length default_ticks `max` 1) PyFloat.one))
    as (locs & Hlocs & Hlen & Hfirst & _).
  - vm_compute. reflexivity.
  - exists locs. split_and!; [exact Hlocs| |exact Hfirst].
    rewrite Hlen. reflexivity.
Defined.

(** ** The numbers of the report *)

Lemma count_rows_cons (P : slot → bool) (r : slot) (rows : list slot) :
  count_rows P (r :: rows) = Z.b2z (P r) + count_rows P rows.
Proof.
  unfold count_rows. rewrite filter_cons. destruct (P r).
  - rewrite decide_True by done. cbn [length Z.b2z]. lia.
  - rewrite decide_False by done. cbn [Z.b2z]. lia.
Qed.

Lemma count_rows_snoc (P : slot → bool) (rows : list slot) (r : slot) :
  count_rows P (rows ++ [r]) = count_rows P rows + Z.b2z (P r).
Proof.
  induction rows as [|r' rows IH]; simpl.
  - rewrite !count_rows_cons. unfold count_rows. simpl. lia.
  - rewrite !count_rows_cons, IH. lia.
Qed.

Lemma count_rows_bound (P : slot → bool) (rows : list slot) :
  0 ≤ count_rows P rows ≤ Z.of_nat (length rows).
Proof.
  induction rows as [|r rows IH]; [done|].
  rewrite count_rows_cons. simpl length. destruct (P r); simpl; lia.
Qed.

Lemma sum_cons (x : Z) (l : list Z) : sum (x :: l) = x + sum l.
Proof. reflexivity. Qed.

Lemma sum_alter {A : Type} (f : A → Z) (g : A → A) (m : list A) (j : nat) (x : A) :
  m !! j = Some x →
  sum (f <$> alter g j m) = sum (f <$> m) + (f (g x) - f x).
Proof.
  revert j. induction m as [|y m IH]; intros j Hj; [done|].
  destruct j as [|j]; simpl in Hj.
  - injection Hj as ->. change (alter g 0%nat (x :: m)) with (g x :: m).
    rewrite !fmap_cons, !sum_cons. ring.
  - change (alter g (S j) (y :: m)) with (y :: alter g j m).
    rewrite !fmap_cons, !sum_cons, (IH j Hj). ring.
Qed.

Lemma wrap64_small (x : Z) : - 2 ^ 63 ≤ x < 2 ^ 63 → wrap64 x = x.
Proof. intros Hx. unfold wrap64. rewrite Z.mod_small; lia. Qed.

Lemma sum_int64_small (xs : list Z) :
  Forall (λ x, 0 ≤ x) xs → sum xs < 2 ^ 63 → sum_int64 xs = sum xs.
Proof.
  intros Hpos Hsum. unfold sum_int64.
  assert (Hgen : ∀ a, 0 ≤ a → a + sum xs < 2 ^ 63 →
            foldl (λ a x, wrap64 (a + x)) a xs = a + sum xs).
  { clear Hsum. induction Hpos as [|x xs Hx Hxs IH]; intros a Ha Hbound.
    - unfold sum; simpl. lia.
    - assert (0 ≤ sum xs).
      { clear -Hxs. induction Hxs as [|y ys Hy _ IH]; unfold sum in *; simpl; lia. }
      unfold sum in *. simpl in *.
      rewrite wrap64_small by lia. rewrite IH by lia. lia. }
  rewrite Hgen by lia. lia.
Qed.

Lemma column_sum_zeros (n c k : nat) :
  column_sum (replicate n (replicate c 0)) k = 0.
Proof.
  unfold column_sum. induction n as [|n IH]; [done|].
  change (replicate (S n) (replicate c 0))
    with (replicate c 0 :: replicate n (replicate c 0)).
  rewrite fmap_cons, sum_cons, IH.
  destruct (replicate c 0 !! k) as [x|] eqn:Hk; [|done].
  by apply lookup_replicate_1 in Hk as [-> _].
Qed.

Lemma report_invariant_init (ticks : list float) :
  report_invariant ticks [] (init_bins ticks).
Proof.
  split; [apply init_bins_shape|]. unfold init_bins; simpl.
  rewrite !sum_replicate_0. split_and!; try done.
  - intros k. apply (column_sum_zeros (length ticks) 9 k).
  - apply Forall_replicate, (Forall_replicate _ 9). simpl. lia.
Qed.

Lemma add_flags_cell (row : list Z) (flags : list bool) (k : nat) (n : Z) :
  length row = length flags → Forall (λ x, 0 ≤ x ≤ n) row → n + 1 < 2 ^ 63 →
  default 0 (zip_with (λ x (f : bool), wrap64 (x + Z.b2z f)) row flags !! k)
  = default 0 (row !! k) + Z.b2z (default false (flags !! k)).
Proof.
  intros Hlen Hrow Hn. rewrite lookup_zip_with.
  destruct (row !! k) as [x|] eqn:Hx; simpl.
  - destruct (lookup_lt_is_Some_2 flags k) as [f Hf].
    { rewrite <- Hlen. by eapply lookup_lt_Some. }
    rewrite Hf. simpl.
    pose proof (Forall_lookup_1 _ _ _ _ Hrow Hx) as Hbound; simpl in Hbound.
    rewrite wrap64_small; [done|]. destruct f; simpl; lia.
  - apply lookup_ge_None in Hx. rewrite (proj2 (lookup_ge_None flags k)) by lia. done.
Qed.

Lemma add_flags_bound (row : list Z) (flags : list bool) (n : Z) :
  Forall (λ x, 0 ≤ x ≤ n) row → n + 1 < 2 ^ 63 →
  Forall (λ x, 0 ≤ x ≤ n + 1)
         (zip_with (λ x (f : bool), wrap64 (x + Z.b2z f)) row flags).
Proof.
  intros Hrow Hn. revert flags.
  induction Hrow as [|x row Hx _ IH]; intros [|f flags]; simpl; try done.
  constructor; [|apply IH]. rewrite wrap64_small; destruct f; simpl; lia.
Qed.

Lemma report_invariant_step (ticks : list float) (done : list slot) (b : bins)
    (r : slot) :
  ticks ≠ [] → length r.2 = length ISSUES →
  Z.of_nat (length done) + 1 < 2 ^ 63 →
  report_invariant ticks done b →
  report_invariant ticks (done ++ [r]) (count_slot ticks b r).
Proof.
  intros Hne Hfl Hsmall (Hshape & Hmiss & Hinv & Hgood & Hcol & Hcells).
  split; [by apply count_slot_shape|].
  rewrite !count_rows_snoc.
  setoid_rewrite count_rows_snoc.
  assert (Hcells' : Forall (Forall (λ x, 0 ≤ x ≤ Z.of_nat (length (done ++ [r]))))
                           (invalid_entry_bins_reason_bins b)).
  { eapply Forall_impl; [exact Hcells|]. intros row Hrow.
    eapply Forall_impl; [exact Hrow|]. intros x Hx. simpl in Hx.
    rewrite length_app. simpl. lia. }
  destruct Hshape as (Hlm & Hlg & Hli & Hlr & Hrows).
  assert (Hpos : (0 < length ticks)%nat) by (destruct ticks; [done|simpl; lia]).
  destruct r as [[p report] flags]. simpl in Hfl.
  unfold count_slot, flagged_in_a_bin, dropped, is_missing, is_invalid, is_good in *.
  destruct report; simpl.
  - (* good *)
    destruct (find_bin ticks p) as [j|] eqn:Hfind; simpl.
    + apply find_bin_from_1 in Hfind. rewrite sum_bump by lia.
      split_and!; try done; try lia.
      intros k. rewrite Hcol. lia.
    + split_and!; try done; try lia.
      intros k. rewrite Hcol. lia.
  - (* missing *)
    rewrite sum_bump by lia. split_and!; try done; try lia.
    intros k. rewrite Hcol. lia.
  - (* invalid *)
    destruct (find_bin ticks p) as [j|] eqn:Hfind; simpl.
    + apply find_bin_from_1 in Hfind. rewrite sum_bump by lia.
      destruct (lookup_lt_is_Some_2 (invalid_entry_bins_reason_bins b) j ltac:(lia))
        as [row Hrow].
      pose proof (Forall_lookup_1 _ _ _ _ Hrows Hrow) as Hrowlen. simpl in Hrowlen.
      pose proof (Forall_lookup_1 _ _ _ _ Hcells Hrow) as Hrowcells. simpl in Hrowcells.
      split_and!; try done; try lia.
      * intros k. unfold column_sum, bump_flags.
        rewrite (sum_alter _ _ _ _ row Hrow).
        rewrite (add_flags_cell row flags k (Z.of_nat (length done))) by (done || lia).
        fold (column_sum (invalid_entry_bins_reason_bins b) k). rewrite Hcol. ring.
      * unfold bump_flags. apply Forall_alter; [done|]. intros row' Hrow' _.
        rewrite Hrow in Hrow'. injection Hrow' as <-.
        rewrite length_app. simpl length.
        replace (Z.of_nat (length done + 1)) with (Z.of_nat (length done) + 1) by lia.
        by apply add_flags_bound.
    + split_and!; try done; try lia.
      intros k. rewrite Hcol. lia.
Qed.

Lemma report_invariant_foldl (ticks : list float) (rows done : list slot) (b : bins) :
  ticks ≠ [] → flags_shape rows →
  Z.of_nat (length (done ++ rows)) < 2 ^ 63 →
  report_invariant ticks done b →
  report_invariant ticks (done ++ rows) (foldl (count_slot ticks) b rows).
Proof.
  intros Hne. revert done b.
  induction rows as [|r rows IH]; intros done b Hfl Hsmall Hinv; simpl.
  - by rewrite app_nil_r.
  - apply Forall_cons in Hfl as [Hr Hfl].
    rewrite cons_middle, app_assoc. apply IH; [done| |].
    + by rewrite <- app_assoc.
    + apply report_invariant_step; try done.
      rewrite length_app in Hsmall. simpl in Hsmall. lia.
Qed.

Lemma mapM_outcome_cons {A B : Type} (f : A → outcome B) (x : A) (l : list A) :
  mapM f (x :: l) = y ← f x; k ← mapM f l; Ok (y :: k).
Proof. reflexivity. Qed.

Lemma np_getitem2_middle (pre rest : list (list Z)) (row : list Z) (k : nat) (x : Z) :
  row !! k = Some x → np_getitem2 (pre ++ row :: rest) (length pre) k = Ok x.
Proof.
  intros Hx. unfold np_getitem2, np_getitem.
  rewrite list_lookup_middle by done. simpl. by rewrite Hx.
Qed.

(** the cells of a column, read bin by bin *)
Lemma column_cells (m pre : list (list Z)) (k : nat) (rest : list (list Z)) :
  m = (pre ++ rest)%list → Forall (λ row, k < length row)%nat rest →
  mapM (λ i, np_getitem2 m i k) (seq (length pre) (length rest))
  = Ok ((λ row, default 0 (row !! k)) <$> rest).
Proof.
  intros ->. revert pre. induction rest as [|row rest IH]; intros pre Hk; [done|].
  apply Forall_cons in Hk as [Hrow Hk].
  change (seq (length pre) (length (row :: rest)))
    with (length pre :: seq (S (length pre)) (length rest)).
  rewrite mapM_outcome_cons. cbv beta.
  destruct (lookup_lt_is_Some_2 row k Hrow) as [x Hx].
  rewrite (np_getitem2_middle pre rest row k x Hx). cbn [mbind outcome_bind].
  specialize (IH (pre ++ [row])%list Hk).
  rewrite <- app_assoc, length_app in IH. simpl in IH.
  replace (length pre + 1)%nat with (S (length pre)) in IH by lia.
  rewrite IH. cbn [mbind outcome_bind]. rewrite fmap_cons, Hx. done.
Qed.

Lemma issue_total_column (ticks : list float) (rows : list slot) (b : bins) (k : nat) :
  report_invariant ticks rows b → Z.of_nat (length rows) < 2 ^ 63 →
  (k < length ISSUES)%nat →
  issue_total b k = Ok (count_rows (flagged_in_a_bin ticks k) rows).
Proof.
  intros ((Hlm & Hlg & Hli & Hlr & Hrows) & _ & _ & _ & Hcol & Hcells) Hsmall Hk.
  unfold issue_total. rewrite Hli, <- Hlr.
  rewrite (column_cells _ [] k (invalid_entry_bins_reason_bins b)); [|done|].
  - simpl. f_equal. rewrite <- Hcol. unfold column_sum. apply sum_int64_small.
    + apply Forall_fmap, Forall_forall. intros row Hrow. simpl.
      destruct (row !! k) as [x|] eqn:Hx; [|done]. simpl.
      pose proof (proj1 (Forall_forall _ _) Hcells row Hrow) as Hbound.
      by destruct (Forall_lookup_1 _ _ _ _ Hbound Hx).
    + fold (column_sum (invalid_entry_bins_reason_bins b) k). rewrite Hcol.
      pose proof (count_rows_bound (flagged_in_a_bin ticks k) rows). lia.
  - eapply Forall_impl; [exact Hrows|]. intros row Hrow. simpl in Hrow. by rewrite Hrow.
Qed.

(** The report holds, under each of the nine labels, the number of invalid
    rows that fell into a bin and have that issue, under [pval] the number
    of rows without p-value, and under [total_entries] the number of rows;
    it has these eleven keys and no other. *)
Theorem issues_count_reports_the_rows (ticks : list float) (rows : list slot) :
  ticks ≠ [] → flags_shape rows → Z.of_nat (length rows) < 2 ^ 63 →
  ∃ b d, count_entries ticks (arrays_of rows) = Ok b
    ∧ issues_count b (Z.of_nat (length rows)) = Ok d
    ∧ d !! "pval" = Some (count_rows is_missing rows)
    ∧ d !! "total_entries" = Some (Z.of_nat (length rows))
    ∧ (∀ k label, ISSUES_LABELS !! k = Some label →
         d !! label = Some (count_rows (flagged_in_a_bin ticks k) rows))
    ∧ dom d = list_to_set (ISSUES_LABELS ++ ["pval"; "total_entries"]).
Proof.
  intros Hne Hshape Hsmall.
  pose proof (report_invariant_foldl ticks rows [] (init_bins ticks) Hne Hshape Hsmall
                (report_invariant_init ticks)) as Hinv.
  simpl in Hinv.
  set (b := foldl (count_slot ticks) (init_bins ticks) rows) in *.
  assert (Htotal : ∀ k, (k < length ISSUES)%nat →
            issue_total b k = Ok (count_rows (flagged_in_a_bin ticks k) rows))
    by (intros k Hk; by apply (issue_total_column ticks rows b k)).
  destruct Hinv as (_ & Hmiss & _).
  exists b. eexists. split; [by apply count_entries_fold|].
  unfold issues_count. cbn [ISSUES length seq for_range].
  rewrite !Htotal by (simpl; lia). cbn [mbind outcome_bind].
  split; [reflexivity|]. rewrite Hmiss. split_and!.
  - by rewrite lookup_insert_ne, lookup_insert_eq.
  - by rewrite lookup_insert_eq.
  - intros k label Hk.
    do 9 (destruct k as [|k]; [injection Hk as <-; by simplify_map_eq|]).
    done.
  - rewrite !dom_insert_L, dom_empty_L. simpl. set_solver.
Qed.

Lemma issues_count_reports_the_rows_witness :
  ∃ b d, count_entries default_ticks
           (arrays_of [(p_0_04, INVALID_ENTRY, <[INVALID_BP := true]> no_issues);
                       (PyFloat.nan, MISSING_P_VALUE, no_issues)]) = Ok b
    ∧ issues_count b 2 = Ok d
    ∧ d !! "pval" = Some 1
    ∧ d !! "BP" = Some 1.
Proof.
  destruct (issues_count_reports_the_rows default_ticks
              [(p_0_04, INVALID_ENTRY, <[INVALID_BP := true]> no_issues);
               (PyFloat.nan, MISSING_P_VALUE, no_issues)])
    as (b & d & Hb & Hd & Hpval & _ & Hlabels & _).
  - discriminate.
  - repeat constructor.
  - vm_compute. reflexivity.
  - exists b, d. split; [exact Hb|]. split; [exact Hd|].
    split; [exact Hpval|]. apply (Hlabels 3%nat "BP" eq_refl).
Defined.

(** ** The counts, verdict by verdict *)

Lemma verdict_counts_step (ticks : list float) (done : list slot) (b : bins) (r : slot) :
  ticks ≠ [] → length r.2 = length ISSUES →
  verdict_counts ticks done b →
  verdict_counts ticks (done ++ [r]) (count_slot ticks b r).
Proof.
  intros Hne Hfl (Hshape & Hgood & Hinv & Hmiss).
  split; [by apply count_slot_shape|].
  rewrite !count_rows_snoc.
  destruct Hshape as (Hlm & Hlg & Hli & _).
  assert (Hpos : (0 < length ticks)%nat) by (destruct ticks; [done|simpl; lia]).
  destruct r as [[p report] flags].
  unfold count_slot, dropped, is_missing, is_invalid, is_good in *.
  destruct report; simpl.
  - destruct (find_bin ticks p) as [j|] eqn:Hfind; simpl.
    + apply find_bin_from_1 in Hfind. rewrite sum_bump by lia. lia.
    + lia.
  - rewrite sum_bump by lia. lia.
  - destruct (find_bin ticks p) as [j|] eqn:Hfind; simpl.
    + apply find_bin_from_1 in Hfind. rewrite sum_bump by lia. lia.
    + lia.
Qed.

Lemma verdict_counts_foldl (ticks : list float) (rows done : list slot) (b : bins) :
  ticks ≠ [] → flags_shape rows → verdict_counts ticks done b →
  verdict_counts ticks (done ++ rows) (foldl (count_slot ticks) b rows).
Proof.
  intros Hne. revert done b.
  induction rows as [|r rows IH]; intros done b Hfl Hinv; simpl.
  - by rewrite app_nil_r.
  - apply Forall_cons in Hfl as [Hr Hfl].
    rewrite cons_middle, app_assoc. apply IH; [done|].
    by apply verdict_counts_step.
Qed.

Lemma count_rows_disjoint (P Q : slot → bool) (rows : list slot) :
  (∀ r, P r = true → Q r = false) →
  count_rows P rows + count_rows Q rows ≤ Z.of_nat (length rows).
Proof.
  intros Hdisj. induction rows as [|r rows IH]; [done|].
  rewrite !count_rows_cons. simpl length.
  specialize (Hdisj r). destruct (P r), (Q r); simpl; try lia.
  all: try (by specialize (Hdisj eq_refl)).
Qed.

(** The entries of the three lists of counts add up, list by list, to the
    numbers of rows of each verdict: the missing rows, the good rows that a
    bin takes and the invalid rows that a bin takes. The number of invalid
    entries in the title of the figure is the last plus the first, and is
    at most the number of rows. *)
Theorem counts_add_up_by_verdict (ticks : list float) (rows : list slot) :
  ticks ≠ [] → flags_shape rows →
  ∃ b, count_entries ticks (arrays_of rows) = Ok b
    ∧ sum (missing_pval_bins b) = count_rows is_missing rows
    ∧ sum (good_entry_bins b)
      = count_rows (λ r, is_good r && negb (dropped ticks r)) rows
    ∧ sum (invalid_entry_bins b)
      = count_rows (λ r, is_invalid r && negb (dropped ticks r)) rows
    ∧ invalid_entries_totally b
      = count_rows (λ r, is_invalid r && negb (dropped ticks r)) rows
        + count_rows is_missing rows
    ∧ 0 ≤ invalid_entries_totally b ≤ Z.of_nat (length rows).
Proof.
  intros Hne Hshape.
  assert (Hinit : verdict_counts ticks [] (init_bins ticks)).
  { split; [apply init_bins_shape|]. unfold init_bins; simpl.
    by rewrite !sum_replicate_0. }
  pose proof (verdict_counts_foldl ticks rows [] _ Hne Hshape Hinit)
    as (_ & Hgood & Hinv & Hmiss).
  simpl in *. eexists. split; [by apply count_entries_fold|].
  unfold invalid_entries_totally. rewrite Hgood, Hinv, Hmiss.
  split_and!; try done.
  - pose proof (count_rows_bound (λ r, is_invalid r && negb (dropped ticks r)) rows).
    pose proof (count_rows_bound is_missing rows). lia.
  - apply count_rows_disjoint. intros [[p report] flags].
    unfold is_invalid, is_missing. by destruct report.
Qed.

Lemma counts_add_up_by_verdict_witness :
  ∃ b, count_entries default_ticks
         (arrays_of [(p_0_04, INVALID_ENTRY, <[INVALID_BP := true]> no_issues);
                     (PyFloat.nan, MISSING_P_VALUE, no_issues)]) = Ok b
    ∧ invalid_entries_totally b = 2.
Proof.
  destruct (counts_add_up_by_verdict default_ticks
              [(p_0_04, INVALID_ENTRY, <[INVALID_BP := true]> no_issues);
               (PyFloat.nan, MISSING_P_VALUE, no_issues)])
    as (b & Hb & _ & _ & _ & Htotal & _).
  - discriminate.
  - repeat constructor.
  - exists b. split; [exact Hb|]. rewrite Htotal. vm_compute. reflexivity.
Defined.

(** ** The pass on a file with a line for every slot *)





